(** * swiftsimio.objects: cosmo_factor and cosmo_array

    A shallow embedding of [src/swiftsimio/objects.py].

    Modelling choices, which hold for the whole file:
    - Python floats (scale factors, a-factors, array entries) are held as
      rationals [Q], and a product or a quotient of two of them stands for
      the product or quotient that the floating point arithmetic gives:
      the results below say which operation the code applies to which
      values, and none of them uses a law of exact arithmetic that
      rounding, overflow or underflow break.  Python's [==] on floats is
      [Qeq_bool].  What binary64 does to a product and a quotient is
      computed on Rocq's own floats in [float64].
    - An array is the type of its entries (floats or integers) and the
      entries; every cosmo_array of the store owns its buffer.
    - A sympy expression in the symbol [a] is kept in its canonical form
      [a**n] and represented by the integer [n].
    - Python objects that are mutated in place (cosmo_arrays) live in a
      store; a method is a function from the store to an outcome (a value
      or a raised exception) and the store it leaves behind.
    - unyt and numpy are collaborators outside the repository: what the
      code needs from unyt is the interface [Unyt], and the results hold
      for every instance of it. *)

From Stdlib Require Import ZArith QArith Qpower Qabs String List Bool Lia.
From Stdlib Require Floats.
From stdpp Require Import base option list strings gmap pretty.
Import ListNotations.

Local Open Scope Z_scope.
Local Open Scope Q_scope.
Local Open Scope string_scope.
Local Open Scope list_scope.

(** ** sympy, as far as [cosmo_factor] uses it *)

Module Sympy.

(** [expr]: the monomial [a**n], held as [n]. *)
Definition expr : Type := Z.

(** The scale factor symbol, [a = sympy.symbols("a")]. *)
Definition a : expr := 1%Z.

(** [e1 * e2], [e1 / e2], [e ** p] and [e1 == e2] on monomials. *)
Definition mul (e1 e2 : expr) : expr := (e1 + e2)%Z.
Definition div (e1 e2 : expr) : expr := (e1 - e2)%Z.
Definition pow (e : expr) (p : Z) : expr := (e * p)%Z.
Definition eqb (e1 e2 : expr) : bool := (e1 =? e2)%Z.

(** [e.subs(a, s)] as a number: [s**n], the power that the float of the
    code approximates.  A negative power of zero is sympy's [zoo], which
    is no real number. *)
Definition subs (e : expr) (s : Q) : option Q :=
  if Qeq_bool s 0 && (e <? 0)%Z then None else Some (Qpower s e).

End Sympy.

(** ** Exceptions and outcomes *)

(** The text of an [InvalidScaleFactor]: the operation attempted, and the
    two scale factors or the two expressions that differ. *)
Inductive message : Type :=
| different_scale_factors (verb : string) (s1 s2 : Q)
| different_dependence (verb : string) (e1 e2 : Sympy.expr).

Inductive exn : Type :=
| NotImplementedError
| InvalidScaleFactor (msg : message)
| AttributeError (obj attr : string)
| TypeError
| KeyError
| ValueError
| ZeroDivisionError
| ForeignError (code : nat).   (* raised by unyt or numpy *)

Inductive result (A : Type) : Type :=
| Return (x : A)
| Raise (e : exn).
Arguments Return {A} x.
Arguments Raise {A} e.

(** ** class cosmo_factor *)

Module cosmo_factor.

Record t : Type := new { expr : Sympy.expr; scale_factor : Q }.

(** [float(self.expr.subs(a, self.scale_factor))]: the power is held as
    the rational it stands for; the float that the code returns is that
    power rounded, so the results below take the a-factor as it is read
    and use none of the laws of powers. *)
Definition a_factor (self : t) : result Q :=
  match Sympy.subs (expr self) (scale_factor self) with
  | Some x => Return x
  | None => Raise TypeError
  end.

(** The right operand [b] of an operator is any Python value the caller
    passes: a cosmo_factor, or [None], on which [b.scale_factor] raises. *)
Definition additive (verb : string) (self : t) (b : option t) : result t :=
  match b with
  | None => Raise (AttributeError "NoneType" "scale_factor")
  | Some b =>
      if negb (Qeq_bool (scale_factor self) (scale_factor b)) then
        Raise (InvalidScaleFactor
                 (different_scale_factors verb (scale_factor self) (scale_factor b)))
      else if negb (Sympy.eqb (expr self) (expr b)) then
        Raise (InvalidScaleFactor (different_dependence verb (expr self) (expr b)))
      else Return (new (expr self) (scale_factor self))
  end.

Definition __add__ : t -> option t -> result t := additive "add".
Definition __sub__ : t -> option t -> result t := additive "subtract".

Definition __mul__ (self : t) (b : option t) : result t :=
  match b with
  | None => Raise (AttributeError "NoneType" "scale_factor")
  | Some b =>
      if negb (Qeq_bool (scale_factor self) (scale_factor b)) then
        Raise (InvalidScaleFactor
                 (different_scale_factors "multiply" (scale_factor self) (scale_factor b)))
      else Return (new (Sympy.mul (expr self) (expr b)) (scale_factor self))
  end.

Definition __truediv__ (self : t) (b : option t) : result t :=
  match b with
  | None => Raise (AttributeError "NoneType" "scale_factor")
  | Some b =>
      if negb (Qeq_bool (scale_factor self) (scale_factor b)) then
        Raise (InvalidScaleFactor
                 (different_scale_factors "divide" (scale_factor self) (scale_factor b)))
      else Return (new (Sympy.div (expr self) (expr b)) (scale_factor self))
  end.

Definition __radd__ (self : t) (b : option t) : result t := __add__ self b.
Definition __rsub__ (self : t) (b : option t) : result t := __sub__ self b.
Definition __rmul__ (self : t) (b : option t) : result t := __mul__ self b.

Definition __rtruediv__ (self : t) (b : option t) : result t :=
  match b with
  | None => Raise (AttributeError "NoneType" "__truediv__")
  | Some b => __truediv__ b (Some self)
  end.

Definition __pow__ (self : t) (p : Z) : t :=
  new (Sympy.pow (expr self) p) (scale_factor self).

(** [self.a_factor == b.a_factor] *)
Definition __eq__ (self b : t) : result bool :=
  match a_factor self with
  | Raise e => Raise e
  | Return x =>
      match a_factor b with
      | Raise e => Raise e
      | Return y => Return (Qeq_bool x y)
      end
  end.

(** The comparisons: those of the two a-factors, the left one read
    first. *)
Definition compare_a_factors (op : Q -> Q -> bool) (self b : t) : result bool :=
  match a_factor self with
  | Raise e => Raise e
  | Return x =>
      match a_factor b with
      | Raise e => Raise e
      | Return y => Return (op x y)
      end
  end.

Definition __lt__ : t -> t -> result bool :=
  compare_a_factors (fun x y => negb (Qle_bool y x)).
Definition __gt__ : t -> t -> result bool :=
  compare_a_factors (fun x y => negb (Qle_bool x y)).
Definition __le__ : t -> t -> result bool := compare_a_factors Qle_bool.
Definition __ge__ : t -> t -> result bool :=
  compare_a_factors (fun x y => Qle_bool y x).
Definition __ne__ : t -> t -> result bool :=
  compare_a_factors (fun x y => negb (Qeq_bool x y)).

(** Python's [x * y] on two values that are a cosmo_factor or [None]:
    [type(x).__mul__] first and, when [x] has none, [type(y).__rmul__]. *)
Definition py_mul (x y : option t) : result t :=
  match x, y with
  | Some x, _ => __mul__ x y
  | None, Some y => __rmul__ y None
  | None, None => Raise TypeError
  end.

End cosmo_factor.

(** ** numpy's universal functions *)

Module np.

(** The functions that are keys of the registry, and the seven that its
    comments list as unsupported. *)
Inductive ufunc : Type :=
| add | subtract | multiply | divide | logaddexp | logaddexp2
| floor_divide | negative | power | remainder | fmod | absolute | fabs
| rint | sign | conj | exp | exp2 | log | log2 | log10 | expm1 | log1p
| sqrt | square | reciprocal | sin | cos | tan | sinh | cosh | tanh
| arcsin | arccos | arctan | arctan2 | arcsinh | arccosh | arctanh
| hypot | deg2rad | rad2deg | greater | greater_equal | less | less_equal
| not_equal | equal | logical_and | logical_or | logical_xor
| logical_not | maximum | minimum | fmax | fmin | isreal | iscomplex
| isfinite | isinf | isnan | signbit | copysign | nextafter | modf
| frexp | floor | ceil | trunc | spacing | positive | divmod_ | isnat
| heaviside | _ones_like | matmul | clip | bitwise_and | bitwise_or
| bitwise_xor | invert | left_shift | right_shift | ldexp.

(** Two names of the import list are second names of one function
    object. *)
Definition true_divide : ufunc := divide.
Definition mod_ : ufunc := remainder.

Definition ufunc_eq_dec (x y : ufunc) : {x = y} + {x <> y}.
Proof. decide equality. Defined.

(** The type of the entries of an array, as far as numpy's casting rule
    tells types apart: floating point or integer. *)
Inductive dtype : Type := float64 | int64.

(** An array: the type of its entries and the entries.  The entries of
    an array of integers are integers. *)
Record ndarray : Type := nd { dtype_of : dtype; items : list Q }.

(** [values.take(indices)], the indices being in range: a new array *)
Definition take (indices : list nat) (values : ndarray) : ndarray :=
  nd (dtype_of values) (omap (fun i => items values !! i) indices).

(** [values.astype(dtype)] on the entries that the type can hold *)
Definition astype (t : dtype) (values : ndarray) : ndarray := nd t (items values).

(** [values /= x] and [values *= x] with a Python float [x]: numpy
    computes in floating point and writes the result to the buffer of
    [values].  A buffer of integers cannot take it under the casting rule
    "same_kind": numpy raises UFuncTypeError, a TypeError, and the buffer is
    as it was.  The quotient and the product stand for those of the
    floating point arithmetic; a division by zero, which gives an infinity
    there, is outside what the rationals hold. *)
Definition itruediv (values : ndarray) (x : Q) : result ndarray :=
  match dtype_of values with
  | float64 => Return (nd float64 (map (fun v => v / x) (items values)))
  | int64 => Raise TypeError
  end.

Definition imul (values : ndarray) (x : Q) : result ndarray :=
  match dtype_of values with
  | float64 => Return (nd float64 (map (fun v => v * x) (items values)))
  | int64 => Raise TypeError
  end.

End np.

(** An array of floats, and one of integers. *)
Definition floats (x : list Q) : np.ndarray := np.nd np.float64 x.

#[global] Instance ufunc_eq_decision : EqDecision np.ufunc := np.ufunc_eq_dec.

(** ** The rules for the cosmo_factor of a result *)

(** The module-level functions that the registry holds.  Two of them with
    the same body are still two function objects, so each is a name. *)
Inductive rule : Type :=
| _sqrt_cosmo_factor
| _multiply_cosmo_factor
| _preserve_cosmo_factor
| _power_cosmo_factor
| _square_cosmo_factor
| _divide_cosmo_factor
| _reciprocal_cosmo_factor
| _passthrough_cosmo_factor
| _return_without_cosmo_factor
| _arctan2_cosmo_factor
| _comparison_cosmo_factor.

#[global] Instance rule_eq_decision : EqDecision rule.
Proof. solve_decision. Defined.

(** A cosmo_factor attribute as a ufunc reads it: an object or [None]. *)
Definition cf_value : Type := option cosmo_factor.t.

(** [f( *cf )]: the call of a rule on the list of the inputs'
    cosmo_factors.  A list that does not fit the signature is a TypeError
    before the body runs. *)
Definition call (f : rule) (cf : list cf_value) : result cf_value :=
  match f, cf with
  | _sqrt_cosmo_factor, [cf] => Raise NotImplementedError
  | _multiply_cosmo_factor, [cf1; cf2] =>
      match cosmo_factor.py_mul cf1 cf2 with
      | Return c => Return (Some c)
      | Raise e => Raise e
      end
  | _preserve_cosmo_factor, ([cf1] | [cf1; _]) => Raise NotImplementedError
  | _power_cosmo_factor, [cf; power] => Raise NotImplementedError
  | _square_cosmo_factor, [cf] => Raise NotImplementedError
  | _divide_cosmo_factor, [cf1; cf2] => Raise NotImplementedError
  | _reciprocal_cosmo_factor, [cf] => Raise NotImplementedError
  | _passthrough_cosmo_factor, ([cf] | [cf; _]) => Raise NotImplementedError
  | _return_without_cosmo_factor, ([cf] | [cf; _]) => Raise NotImplementedError
  | _arctan2_cosmo_factor, [cf1; cf2] => Raise NotImplementedError
  | _comparison_cosmo_factor, ([cf1] | [cf1; _]) => Raise NotImplementedError
  | _, _ => Raise TypeError
  end.

(** The rules whose signature takes a second cosmo_factor. *)
Definition takes_two (f : rule) : bool :=
  match f with
  | _sqrt_cosmo_factor | _square_cosmo_factor | _reciprocal_cosmo_factor => false
  | _ => true
  end.

(** A dict display: the entries in the order written. *)
Definition dict (K V : Type) : Type := list (K * V).

(** [d[k]]: a later entry for a key replaces an earlier one. *)
Fixpoint getitem {K V : Type} `{EqDecision K} (d : dict K V) (k : K) : option V :=
  match d with
  | [] => None
  | (k', v) :: d' =>
      match getitem d' k with
      | Some v' => Some v'
      | None => if decide (k' = k) then Some v else None
      end
  end.

(** [cosmo_array._cosmo_factor_ufunc_registry] *)
Definition _cosmo_factor_ufunc_registry : dict np.ufunc rule :=
    [
      (np.add, _preserve_cosmo_factor);
      (np.subtract, _preserve_cosmo_factor);
      (np.multiply, _multiply_cosmo_factor);
      (np.divide, _divide_cosmo_factor);
      (np.logaddexp, _return_without_cosmo_factor);
      (np.logaddexp2, _return_without_cosmo_factor);
      (np.true_divide, _divide_cosmo_factor);
      (np.floor_divide, _divide_cosmo_factor);
      (np.negative, _passthrough_cosmo_factor);
      (np.power, _power_cosmo_factor);
      (np.remainder, _preserve_cosmo_factor);
      (np.mod_, _preserve_cosmo_factor);
      (np.fmod, _preserve_cosmo_factor);
      (np.absolute, _passthrough_cosmo_factor);
      (np.fabs, _passthrough_cosmo_factor);
      (np.rint, _return_without_cosmo_factor);
      (np.sign, _return_without_cosmo_factor);
      (np.conj, _passthrough_cosmo_factor);
      (np.exp, _return_without_cosmo_factor);
      (np.exp2, _return_without_cosmo_factor);
      (np.log, _return_without_cosmo_factor);
      (np.log2, _return_without_cosmo_factor);
      (np.log10, _return_without_cosmo_factor);
      (np.expm1, _return_without_cosmo_factor);
      (np.log1p, _return_without_cosmo_factor);
      (np.sqrt, _sqrt_cosmo_factor);
      (np.square, _square_cosmo_factor);
      (np.reciprocal, _reciprocal_cosmo_factor);
      (np.sin, _return_without_cosmo_factor);
      (np.cos, _return_without_cosmo_factor);
      (np.tan, _return_without_cosmo_factor);
      (np.sinh, _return_without_cosmo_factor);
      (np.cosh, _return_without_cosmo_factor);
      (np.tanh, _return_without_cosmo_factor);
      (np.arcsin, _return_without_cosmo_factor);
      (np.arccos, _return_without_cosmo_factor);
      (np.arctan, _return_without_cosmo_factor);
      (np.arctan2, _arctan2_cosmo_factor);
      (np.arcsinh, _return_without_cosmo_factor);
      (np.arccosh, _return_without_cosmo_factor);
      (np.arctanh, _return_without_cosmo_factor);
      (np.hypot, _preserve_cosmo_factor);
      (np.deg2rad, _return_without_cosmo_factor);
      (np.rad2deg, _return_without_cosmo_factor);
      (np.greater, _comparison_cosmo_factor);
      (np.greater_equal, _comparison_cosmo_factor);
      (np.less, _comparison_cosmo_factor);
      (np.less_equal, _comparison_cosmo_factor);
      (np.not_equal, _comparison_cosmo_factor);
      (np.equal, _comparison_cosmo_factor);
      (np.logical_and, _comparison_cosmo_factor);
      (np.logical_or, _comparison_cosmo_factor);
      (np.logical_xor, _comparison_cosmo_factor);
      (np.logical_not, _return_without_cosmo_factor);
      (np.maximum, _preserve_cosmo_factor);
      (np.minimum, _preserve_cosmo_factor);
      (np.fmax, _preserve_cosmo_factor);
      (np.fmin, _preserve_cosmo_factor);
      (np.isreal, _return_without_cosmo_factor);
      (np.iscomplex, _return_without_cosmo_factor);
      (np.isfinite, _return_without_cosmo_factor);
      (np.isinf, _return_without_cosmo_factor);
      (np.isnan, _return_without_cosmo_factor);
      (np.signbit, _return_without_cosmo_factor);
      (np.copysign, _passthrough_cosmo_factor);
      (np.nextafter, _preserve_cosmo_factor);
      (np.modf, _passthrough_cosmo_factor);
      (np.frexp, _return_without_cosmo_factor);
      (np.floor, _passthrough_cosmo_factor);
      (np.ceil, _passthrough_cosmo_factor);
      (np.trunc, _passthrough_cosmo_factor);
      (np.spacing, _passthrough_cosmo_factor);
      (np.positive, _passthrough_cosmo_factor);
      (np.divmod_, _passthrough_cosmo_factor);
      (np.isnat, _return_without_cosmo_factor);
      (np.heaviside, _preserve_cosmo_factor);
      (np._ones_like, _preserve_cosmo_factor);
      (np.matmul, _multiply_cosmo_factor);
      (np.clip, _passthrough_cosmo_factor)
    ].

(** ** class cosmo_array: the object *)

Module cosmo_array.

(** What an object of the class holds: the buffer and the units of the
    unyt_array it inherits from, and the three attributes it adds. *)
Record t : Type := mk {
  d : np.ndarray;
  units : string;
  cosmo_factor : cf_value;
  comoving : bool;
  compression : option string }.

(** Attribute assignment. *)
Definition set_d (v : np.ndarray) (o : t) : t :=
  mk v (units o) (cosmo_factor o) (comoving o) (compression o).
Definition set_units (v : string) (o : t) : t :=
  mk (d o) v (cosmo_factor o) (comoving o) (compression o).
Definition set_cosmo_factor (v : cf_value) (o : t) : t :=
  mk (d o) (units o) v (comoving o) (compression o).
Definition set_comoving (v : bool) (o : t) : t :=
  mk (d o) (units o) (cosmo_factor o) v (compression o).
Definition set_compression (v : option string) (o : t) : t :=
  mk (d o) (units o) (cosmo_factor o) (comoving o) v.

End cosmo_array.

(** ** The store, and computations on it *)

(** A reference to a cosmo_array object: its place in the store. *)
Abbreviation ref := nat.
Abbreviation store := (list cosmo_array.t).

(** A Python computation: from the store to what it returns or raises,
    and the store after it.  What was written before an exception stays
    written. *)
Definition Py (A : Type) : Type := store -> result A * store.

Definition pure {A : Type} (x : A) : Py A := fun s => (Return x, s).
Definition throw {A : Type} (e : exn) : Py A := fun s => (Raise e, s).
Definition lift {A : Type} (r : result A) : Py A := fun s => (r, s).

Definition bind {A B : Type} (m : Py A) (k : A -> Py B) : Py B :=
  fun s =>
    match m s with
    | (Return x, s') => k x s'
    | (Raise e, s') => (Raise e, s')
    end.

Notation "x <- m ;; k" := (bind m (fun x => k))
  (at level 100, m at next level, right associativity).
Notation "m ;; k" := (bind m (fun _ => k))
  (at level 100, right associativity).

(** A reference that is not in the store is never made by the code below;
    [SystemError] keeps [load] total. *)
Definition SystemError : exn := ForeignError 0.

Definition load (r : ref) : Py cosmo_array.t :=
  fun s =>
    match s !! r with
    | Some o => (Return o, s)
    | None => (Raise SystemError, s)
    end.

Definition alloc (o : cosmo_array.t) : Py ref :=
  fun s => (Return (length s), s ++ [o]).

(** [r.attr] and [r.attr = v] *)
Definition getattr {A : Type} (attr : cosmo_array.t -> A) (r : ref) : Py A :=
  o <- load r ;; pure (attr o).

Definition setattr (r : ref) (assign : cosmo_array.t -> cosmo_array.t) : Py unit :=
  fun s =>
    match s !! r with
    | Some o => (Return tt, <[r := assign o]> s)
    | None => (Raise SystemError, s)
    end.

(** [[f(x) for x in l]] *)
Fixpoint for_each {A B : Type} (f : A -> Py B) (l : list A) : Py (list B) :=
  match l with
  | [] => pure []
  | x :: l' => y <- f x ;; ys <- for_each f l' ;; pure (y :: ys)
  end.

(** A Python value that a ufunc takes as input or an accessor returns: a
    cosmo_array object, or any other value (a scalar, an ndarray, a
    unyt_quantity), which has none of the three attributes. *)
Inductive value : Type :=
| array (r : ref)
| foreign (x : np.ndarray).

(** ** unyt, as far as [cosmo_array] uses it *)

(** An input as the base class' ufunc machinery sees it. *)
Inductive operand : Type :=
| quantity (d : np.ndarray) (units : string)
| bare (d : np.ndarray).

Class Unyt : Type := {
  (** the data of a quantity in other units, or a conversion error *)
  unyt_convert : string -> string -> np.ndarray -> result np.ndarray;
  (** [unyt_array.__array_ufunc__(ufunc, method, *inputs)]: data and units *)
  unyt_array_ufunc :
    np.ufunc -> string -> list operand -> result (np.ndarray * string);
  (** [unyt_array.__reduce__()[2]] and [unyt_array.__setstate__(state)] *)
  unyt_state : Type;
  unyt_reduce : np.ndarray -> string -> list unyt_state;
  unyt_setstate : list unyt_state -> result (np.ndarray * string) }.

(** ** class cosmo_array: the methods *)

Section Methods.

Context {U : Unyt}.

Import cosmo_array.

(** [getattr(v, attr, default)] *)
Definition getattr_default {A : Type} (attr : cosmo_array.t -> A) (default : A)
    (v : value) : Py A :=
  match v with
  | array r => getattr attr r
  | foreign _ => pure default
  end.

(** [cosmo_array.__new__]: the base class makes the object, then the
    three attributes are assigned. *)
Definition __new__ (input_array : np.ndarray) (units : string)
    (cosmo_factor : cf_value) (comoving : bool) (compression : option string)
    : Py ref :=
  obj <- alloc (cosmo_array.mk input_array units None true None) ;;
  setattr obj (set_cosmo_factor cosmo_factor) ;;
  setattr obj (set_comoving comoving) ;;
  setattr obj (set_compression compression) ;;
  pure obj.

(** [__array_finalize__(self, obj)], with [obj] being [None] or the
    value the new array was made from. *)
Definition __array_finalize__ (self : ref) (obj : option value) : Py unit :=
  match obj with
  | None => pure tt
  | Some obj =>
      cf <- getattr_default cosmo_factor None obj ;;
      setattr self (set_cosmo_factor cf) ;;
      cm <- getattr_default comoving true obj ;;
      setattr self (set_comoving cm) ;;
      comp <- getattr_default compression None obj ;;
      setattr self (set_compression comp)
  end.

(** [_propagate_cosmo_array_attributes(func)], applied to [self]; the
    other arguments are part of [func].  An object of the store has both
    attributes, so the two [hasattr] tests hold. *)
Definition _propagate_cosmo_array_attributes (func : ref -> Py value)
    (self : ref) : Py value :=
  ret <- func self ;;
  match ret with
  | foreign _ => pure ret
  | array r =>
      cf <- getattr cosmo_factor self ;;
      setattr r (set_cosmo_factor cf) ;;
      cm <- getattr comoving self ;;
      setattr r (set_comoving cm) ;;
      pure ret
  end.

(** An ndarray method that returns a new array with a buffer of its own
    ([flatten], [take], [repeat], [compress], [astype], [byteswap]): numpy
    makes an object of the receiver's class over the data [f] computes
    and finalizes it with the receiver.  The methods that return a view
    ([__getitem__] on a slice, [reshape], [transpose], [T], [view]) are
    finalized in the same way, but their buffer is the receiver's: a later
    write in place to one shows in the other.  Every object of the store
    below owns its buffer, so such views are outside the model. *)
Definition ndarray_method (f : np.ndarray -> np.ndarray) (self : ref) : Py value :=
  o <- load self ;;
  r <- alloc (cosmo_array.mk (f (d o)) (units o) None true None) ;;
  __array_finalize__ r (Some (array self)) ;;
  pure (array r).

(** [unyt_array.in_units(units)]: the converted data (with the array's own
    units the factor is one), as a new array of floats, given to the
    constructor of the receiver's class with no other argument. *)
Definition unyt_in_units (units' : string) (self : ref) : Py value :=
  o <- load self ;;
  data <- lift (if String.eqb (units o) units' then Return (d o)
                else unyt_convert (units o) units' (d o)) ;;
  ret <- __new__ (np.astype np.float64 data) units' None true None ;;
  pure (array ret).

(** The wrapped accessors of the class body. *)
Definition in_units (units' : string) : ref -> Py value :=
  _propagate_cosmo_array_attributes (unyt_in_units units').
Definition accessor (f : np.ndarray -> np.ndarray) : ref -> Py value :=
  _propagate_cosmo_array_attributes (ndarray_method f).

(** [self.cosmo_factor.a_factor] *)
Definition a_factor_of (cf : cf_value) : result Q :=
  match cf with
  | Some c => cosmo_factor.a_factor c
  | None => Raise (AttributeError "NoneType" "a_factor")
  end.

Definition convert_to_comoving (self : ref) : Py unit :=
  cm <- getattr comoving self ;;
  if cm then pure tt
  else
    values <- getattr d self ;;
    cf <- getattr cosmo_factor self ;;
    a_factor <- lift (a_factor_of cf) ;;
    values <- lift (np.itruediv values a_factor) ;;
    setattr self (set_d values) ;;
    setattr self (set_comoving true).

Definition convert_to_physical (self : ref) : Py unit :=
  cm <- getattr comoving self ;;
  if cm then
    values <- getattr d self ;;
    cf <- getattr cosmo_factor self ;;
    a_factor <- lift (a_factor_of cf) ;;
    values <- lift (np.imul values a_factor) ;;
    setattr self (set_d values) ;;
    setattr self (set_comoving false)
  else pure tt.

(** [copied_data.m()] on what [in_units] returned.  In [to_physical] and
    [to_comoving] the keyword argument [cosmo_factor] of the call of
    [in_units] goes to the keyword arguments of the base class' method,
    which reads them only when given an equivalence. *)
Definition on_array {A : Type} (m : ref -> Py A) (name : string) (v : value)
    : Py ref :=
  match v with
  | array r => m r ;; pure r
  | foreign _ => throw (AttributeError "foreign" name)
  end.

Definition to_physical (self : ref) : Py ref :=
  u <- getattr units self ;;
  copied_data <- in_units u self ;;
  on_array convert_to_physical "convert_to_physical" copied_data.

Definition to_comoving (self : ref) : Py ref :=
  u <- getattr units self ;;
  copied_data <- in_units u self ;;
  on_array convert_to_comoving "convert_to_comoving" copied_data.

Definition compatible_with_comoving (self : ref) : Py bool :=
  cm <- getattr comoving self ;;
  if cm then pure true
  else
    cf <- getattr cosmo_factor self ;;
    a_factor <- lift (a_factor_of cf) ;;
    pure (Qeq_bool a_factor 1).

Definition compatible_with_physical (self : ref) : Py bool :=
  cm <- getattr comoving self ;;
  if negb cm then pure true
  else
    cf <- getattr cosmo_factor self ;;
    a_factor <- lift (a_factor_of cf) ;;
    pure (Qeq_bool a_factor 1).

(** [self.to_physical().to_comoving()] *)
Definition to_physical_to_comoving (self : ref) : Py ref :=
  physical <- to_physical self ;; to_comoving physical.


(** [inp.to_comoving() if not inp.comoving else inp] *)
Definition comoving_input (inp : value) : Py value :=
  match inp with
  | foreign _ => throw (AttributeError "foreign" "comoving")
  | array r =>
      cm <- getattr comoving r ;;
      if negb cm then r' <- to_comoving r ;; pure (array r')
      else pure inp
  end.

Definition as_operand (inp : value) : Py operand :=
  match inp with
  | array r => o <- load r ;; pure (quantity (d o) (units o))
  | foreign x => pure (bare x)
  end.

(** [len(set(l)) == 1] *)
Definition one_distinct {A : Type} `{EqDecision A} (l : list A) : bool :=
  match l with
  | [] => false
  | x :: l' => forallb (fun y => bool_decide (y = x)) l'
  end.

(** [self._cosmo_factor_ufunc_registry[ufunc]] *)
Definition registry_getitem (ufunc : np.ufunc) : result rule :=
  match getitem _cosmo_factor_ufunc_registry ufunc with
  | Some f => Return f
  | None => Raise KeyError
  end.

(** The frames of the inputs: all comoving, all physical, or mixed, in
    which case every physical input is replaced by [to_comoving()] of
    it. *)
Definition resolve_frames (cm : list bool) (inputs : list value)
    : Py (list value * bool) :=
  if forallb id cm then pure (inputs, true)
  else if negb (existsb id cm) then pure (inputs, false)
  else inputs' <- for_each comoving_input inputs ;; pure (inputs', true).

(** [cosmo_array.__array_ufunc__(self, ufunc, method, *inputs)]; keyword
    arguments are not modelled. *)
Definition __array_ufunc__ (self : ref) (ufunc : np.ufunc) (method : string)
    (inputs : list value) : Py ref :=
  cm <- for_each (getattr_default comoving true) inputs ;;
  cf <- for_each (getattr_default cosmo_factor None) inputs ;;
  comp <- for_each (getattr_default compression None) inputs ;;
  resolved <- resolve_frames cm inputs ;;
  let inputs := fst resolved in
  let ret_cm := snd resolved in
  let ret_comp := if one_distinct comp then hd None comp else None in
  operands <- for_each as_operand inputs ;;
  base <- lift (unyt_array_ufunc ufunc method operands) ;;
  ret_arr <- alloc (cosmo_array.mk (fst base) (snd base) None true None) ;;
  setattr ret_arr (set_comoving ret_cm) ;;
  f <- lift (registry_getitem ufunc) ;;
  ret_cf <- lift (call f cf) ;;
  setattr ret_arr (set_cosmo_factor ret_cf) ;;
  setattr ret_arr (set_compression ret_comp) ;;
  pure ret_arr.

(** The state tuple of a pickled cosmo_array,
    [((cosmo_factor, comoving),) + obj_state]: its first element and the
    slice from the second on. *)
Definition state_tuple : Type := (cf_value * bool) * list unyt_state.

(** [__reduce__()[2]]; the other elements of the tuple are the base
    class' as they are. *)
Definition __reduce__ (self : ref) : Py state_tuple :=
  o <- load self ;;
  let obj_state := unyt_reduce (d o) (units o) in
  pure ((cosmo_factor o, comoving o), obj_state).

Definition __setstate__ (self : ref) (state : state_tuple) : Py unit :=
  restored <- lift (unyt_setstate (snd state)) ;;
  setattr self (set_d (fst restored)) ;;
  setattr self (set_units (snd restored)) ;;
  setattr self (set_cosmo_factor (fst (fst state))) ;;
  setattr self (set_comoving (snd (fst state))).

(** [pickle.loads(pickle.dumps(self))]: the reconstructor makes an
    object of the class whose attributes are not yet set ([fresh]
    stands for it), and [__setstate__] is called on it. *)
Definition pickle_roundtrip (fresh : cosmo_array.t) (self : ref) : Py ref :=
  state <- __reduce__ self ;;
  r <- alloc fresh ;;
  __setstate__ r state ;;
  pure r.

End Methods.

(** ** A small unyt to run examples on *)

(** Elementwise arithmetic on equal units, a scalar operand broadcast over
    the other one, no conversion between different units, and a state of
    two entries: the units and the buffer. *)
Definition broadcast (f : Q -> Q -> Q) (x y : list Q) : list Q :=
  match x, y with
  | [c], _ => map (f c) y
  | _, [c] => map (fun v => f v c) x
  | _, _ => zip_with f x y
  end.

Definition sign_of (x : Q) : Q :=
  match Qcompare x 0 with
  | Lt => -1
  | Eq => 0
  | Gt => 1
  end.

(** The type of the result of an arithmetic operation on two arrays. *)
Definition promote (x y : np.ndarray) : np.dtype :=
  match np.dtype_of x, np.dtype_of y with
  | np.int64, np.int64 => np.int64
  | _, _ => np.float64
  end.

Definition elementwise (f : Q -> Q -> Q) (x y : np.ndarray) : np.ndarray :=
  np.nd (promote x y) (broadcast f (np.items x) (np.items y)).

Definition example_ufunc (ufunc : np.ufunc) (method : string) (inputs : list operand)
    : result (np.ndarray * string) :=
  match ufunc, inputs with
  | np.add, [quantity x u; quantity y u'] =>
      if String.eqb u u' then Return (elementwise Qplus x y, u)
      else Raise (ForeignError 2)
  | np.subtract, [quantity x u; quantity y u'] =>
      if String.eqb u u' then Return (elementwise Qminus x y, u)
      else Raise (ForeignError 2)
  | np.add, [quantity x u; bare y] => Return (elementwise Qplus x y, u)
  | np.add, [bare x; quantity y u] => Return (elementwise Qplus x y, u)
  | np.multiply, [quantity x u; quantity y u'] =>
      Return (elementwise Qmult x y, (u ++ "*" ++ u')%string)
  | np.multiply, [quantity x u; bare y] => Return (elementwise Qmult x y, u)
  | np.multiply, [bare x; quantity y u] => Return (elementwise Qmult x y, u)
  | np.divide, [quantity x u; bare y] =>
      Return (floats (broadcast Qdiv (np.items x) (np.items y)), u)
  | np.negative, [quantity x u] =>
      Return (np.nd (np.dtype_of x) (map Qopp (np.items x)), u)
  | np.sign, [quantity x u] =>
      Return (np.nd (np.dtype_of x) (map sign_of (np.items x)), "dimensionless")
  | np.square, [quantity x u] =>
      Return (np.nd (np.dtype_of x) (map (fun v => v * v) (np.items x)),
              (u ++ "**2")%string)
  | np.reciprocal, [quantity (np.nd np.float64 x) u] =>
      Return (floats (map Qinv x), ("1/" ++ u)%string)
  | np.sqrt, [quantity x u] => Return (floats (np.items x), ("sqrt(" ++ u ++ ")")%string)
  | _, _ => Raise (ForeignError 3)
  end.

Inductive example_state : Type :=
| unit_state (units : string)
| buffer_state (d : np.ndarray).

Definition example_unyt : Unyt := {|
  unyt_convert := fun _ _ _ => Raise (ForeignError 4);
  unyt_array_ufunc := example_ufunc;
  unyt_state := example_state;
  unyt_reduce := fun d units => [unit_state units; buffer_state d];
  unyt_setstate := fun state =>
    match state with
    | [unit_state units; buffer_state d] => Return (d, units)
    | _ => Raise ValueError
    end |}.

(** The arrays of the examples: [x] is comoving, [y] is physical, both of
    exponent [a**1] at scale factor 0.5; [z] is [x] read from a compressed
    dataset. *)
Definition a_half : cosmo_factor.t := cosmo_factor.new Sympy.a (1 # 2).

Definition x_comoving : cosmo_array.t :=
  cosmo_array.mk (floats [1; 2; 3]) "kpc" (Some a_half) true None.

Definition y_physical : cosmo_array.t :=
  cosmo_array.mk (floats [1 # 2; 1; 3 # 2]) "kpc" (Some a_half) false None.

Definition z_compressed : cosmo_array.t :=
  cosmo_array.mk (floats [1; 2; 3]) "kpc" (Some a_half) true (Some "gzip").

(** ** The operations of the registry by rule *)

(** The keys of the registry whose rule is [f], in the order written. *)
Definition operations_of (f : rule) : list np.ufunc :=
  map fst (filter (fun kv => bool_decide (kv.2 = f)) _cosmo_factor_ufunc_registry).

(** ** The arithmetic of the conversions in binary64 *)

(** The entries of an array of floats are binary64 numbers: [values *= x]
    and [values /= x] round every product and every quotient to the
    nearest such number, and give an infinity where the result is too
    large. *)
Module float64.

Import Floats.PrimFloat.

Definition imul (values : list float) (x : float) : list float :=
  map (fun v => PrimFloat.mul v x) values.

Definition itruediv (values : list float) (x : float) : list float :=
  map (fun v => PrimFloat.div v x) values.

(** The values of [to_physical().to_comoving()] on a comoving array. *)
Definition to_physical_to_comoving (values : list float) (a_factor : float)
    : list float :=
  itruediv (imul values a_factor) a_factor.





End float64.


(** ** Computations that leave the objects they were given alone *)

(** [keeps p m post]: run on a store that starts with the objects [p], [m]
    leaves a store that starts with the same objects, unchanged, and what
    it returns satisfies [post]. *)
Definition keeps {A : Type} (p : store) (m : Py A) (post : A -> Prop) : Prop :=
  forall s, p `prefix_of` s ->
    p `prefix_of` (m s).2 /\ (forall x, (m s).1 = Return x -> post x).

(** A value that is not one of the objects [p]. *)
Definition made_after (p : store) (v : value) : Prop :=
  match v with
  | array r => (length p <= r)%nat
  | foreign _ => True
  end.

(** * swiftsimio.writer

    The datasets that a caller fills and [SWIFTWriterDataset.write] writes
    out.  The module [metadata] of the package and the libraries unyt and
    h5py are outside the files embedded here: what the code takes from
    them is the two interfaces below, and a file is the list of its
    groups, each with the attributes created on it, in order. *)

Module writer.

(** ** Exceptions and outcomes *)

Inductive raised : Type :=
| AttributeError (what : string)
| KeyError (key : string)
| TypeError (what : string)
| IndexError
| AssertionError (what : string)
| InvalidUnitEquivalence (what : string)
| NotImplementedError.

Inductive outcome (A : Type) : Type :=
| Ok (x : A)
| Err (e : raised).
Arguments Ok {A} x.
Arguments Err {A} e.

(** ** Values and collaborators *)

(** A unyt array: the lengths of its axes, its units and its data. *)
Record quantity : Type := { shape : list nat; units : string; data : list Q }.

(** An entry of [generate_dimensions()]: the integer [1], or dimensions. *)
Inductive field_dimensions (D : Type) : Type :=
| int_one
| dims (x : D).
Arguments int_one {D}.
Arguments dims {D} x.

(** [Union[unyt.UnitSystem, str]] *)
Inductive unit_system (S : Type) : Type :=
| by_name (name : string)
| by_object (system : S).
Arguments by_name {S} name.
Arguments by_object {S} system.

Inductive base_dimension : Type := dim_mass | dim_length | dim_time | dim_temperature.

Class Units : Type := {
  dimension : Type;
  (** [d1 == d2] on dimensions *)
  dimension_eqb : dimension -> dimension -> bool;
  UnitSystem : Type;
  (** [value.units.dimensions], by the units *)
  units_dimensions : string -> dimension;
  (** what [value.convert_to_base(unit_system)] leaves in [value] *)
  convert_to_base : unit_system UnitSystem -> quantity -> quantity;
  (** [base[type].get_conversion_factor(cgs_base[type])[0]], or the
      exception that unyt raises there *)
  cgs_conversion : UnitSystem -> base_dimension -> outcome Q }.

Class Metadata `{Units} : Type := {
  (** [metadata.particle_types.particle_name_underscores.items()] *)
  particle_name_underscores : dict nat string;
  (** [metadata.particle_types.particle_name_class.items()] *)
  particle_name_class : dict nat string;
  (** [getattr(metadata.required_fields, particle_name).keys()] *)
  required_fields : string -> option (list string);
  (** [metadata.unit_fields.generate_dimensions()[particle_name][name]] *)
  generate_dimensions : string -> string -> option (field_dimensions dimension) }.

(** A value given to a setter: [None], a unyt array (a reference into the
    store of arrays), or anything else. *)
Inductive pyvalue : Type :=
| py_none
| py_unyt_array (r : nat)
| py_other.

(** What [header.attrs.create(name, value)] is given. *)
Inductive attr_value : Type :=
| box_scalar (x : Q)
| box_list (x : list Q)
| counts (n : list nat)
| integer (n : Z)
| factor (x : Q).

(** A file: its groups with their attributes, in the order created. *)
Abbreviation h5file := (list (string * list (string * attr_value))).

Section Writer.

Context `{M : Metadata}.

(** ** class __SWIFTWriterParticleDataset *)

(** An object of the class: the attributes set by [__init__], the
    attributes [_name] of the required fields (each [None] or an array),
    and the two attributes that [check_consistent] sets. *)
Record dataset : Type := mk_dataset {
  ds_unit_system : unit_system UnitSystem;
  particle_type : nat;
  particle_handle : string;
  particle_name : string;
  fields : gmap string (option nat);
  requires_particle_ids_before_write : option bool;
  n_part : option nat }.

Definition set_field (name : string) (v : option nat) (self : dataset) : dataset :=
  mk_dataset (ds_unit_system self) (particle_type self) (particle_handle self)
    (particle_name self) (<[name := v]> (fields self))
    (requires_particle_ids_before_write self) (n_part self).

Definition set_requires (v : bool) (self : dataset) : dataset :=
  mk_dataset (ds_unit_system self) (particle_type self) (particle_handle self)
    (particle_name self) (fields self) (Some v) (n_part self).

Definition set_n_part (v : nat) (self : dataset) : dataset :=
  mk_dataset (ds_unit_system self) (particle_type self) (particle_handle self)
    (particle_name self) (fields self)
    (requires_particle_ids_before_write self) (Some v).

(** [getattr(self, f"_{name}")] *)
Definition getattr_field (self : dataset) (name : string) : outcome (option nat) :=
  match fields self !! name with
  | Some v => Ok v
  | None => Err (AttributeError ("_" +:+ name))
  end.

(** [getattr(metadata.required_fields, self.particle_name).keys()] *)
Definition required_names (self : dataset) : outcome (list string) :=
  match required_fields (particle_name self) with
  | Some names => Ok names
  | None => Err (AttributeError (particle_name self))
  end.

Definition generate_empty_properties (self : dataset) : outcome dataset :=
  match required_names self with
  | Err e => Err e
  | Ok names => Ok (fold_left (fun ds name => set_field name None ds) names self)
  end.

Definition __init__ (unit_system : unit_system UnitSystem) (particle_type : nat)
    : outcome dataset :=
  match getitem particle_name_underscores particle_type with
  | None => Err (KeyError (pretty particle_type))
  | Some name =>
      generate_empty_properties
        (mk_dataset unit_system particle_type ("PartType" +:+ pretty particle_type)
           name ∅ None None)
  end.

(** The loop of [check_empty]: [False] at the first field that is set. *)
Fixpoint all_unset (self : dataset) (names : list string) : outcome bool :=
  match names with
  | [] => Ok true
  | name :: names' =>
      match getattr_field self name with
      | Err e => Err e
      | Ok (Some _) => Ok false
      | Ok None => all_unset self names'
      end
  end.

Definition check_empty (self : dataset) : outcome bool :=
  match required_names self with
  | Err e => Err e
  | Ok names => all_unset self names
  end.

(** [getattr(self, f"_{name}").shape[0]], the array being in [arrays] *)
Definition shape0 (arrays : list quantity) (r : nat) : outcome nat :=
  match arrays !! r with
  | None => Err (AttributeError "shape")
  | Some q =>
      match shape q with
      | n :: _ => Ok n
      | [] => Err IndexError
      end
  end.

(** The loop of [check_consistent].  [name is "particle_ids"] compares
    the field name with the literal. *)
Fixpoint sizes_loop (arrays : list quantity) (names : list string) (self : dataset)
    (sizes : list nat) : outcome (list nat) * dataset :=
  match names with
  | [] => (Ok sizes, self)
  | name :: names' =>
      match getattr_field self name with
      | Err e => (Err e, self)
      | Ok None =>
          if String.eqb name "particle_ids"
          then sizes_loop arrays names' (set_requires true self) sizes
          else (Err (AttributeError ("Required dataset " +:+ name +:+ " is None.")), self)
      | Ok (Some r) =>
          match shape0 arrays r with
          | Err e => (Err e, self)
          | Ok n => sizes_loop arrays names' self (sizes ++ [n])
          end
      end
  end.

(** [reduce(lambda x, y: x and y, l)] on a list that is not empty *)
Definition reduce_and (first : bool) (rest : list bool) : bool :=
  fold_left andb rest first.

Definition check_consistent (arrays : list quantity) (self : dataset)
    : outcome bool * dataset :=
  let self := set_requires false self in
  match required_names self with
  | Err e => (Err e, self)
  | Ok names =>
      match sizes_loop arrays names self [] with
      | (Err e, self) => (Err e, self)
      | (Ok [], self) => (Err (TypeError "reduce() of empty sequence"), self)
      | (Ok (first :: rest), self) =>
          if reduce_and (first =? first)%nat (map (fun x => (first =? x)%nat) rest)
          then (Ok true, set_n_part first self)
          else (Err (AssertionError (particle_name self)), self)
      end
  end.

Definition write_particle_group (self : dataset) (file : h5file) : outcome unit :=
  Err NotImplementedError.

(** The field [name] of [self] is set to an array whose first axis has
    length [n]. *)
Definition sized (arrays : list quantity) (self : dataset) (name : string) (n : nat)
    : Prop :=
  exists r q, fields self !! name = Some (Some r) /\ arrays !! r = Some q /\
              hd_error (shape q) = Some n.

(** ** The generated properties *)

(** [generate_getter(name)] *)
Definition getter (name : string) (self : dataset) : outcome (option nat) :=
  getattr_field self name.

(** [generate_setter(name, dimensions, unit_system)]: the outcome, the
    store of arrays and the dataset it leaves. *)
Definition setter (name : string) (dimensions : field_dimensions dimension)
    (unit_system : unit_system UnitSystem) (self : dataset) (value : pyvalue)
    (arrays : list quantity) : outcome unit * (list quantity * dataset) :=
  match dimensions with
  | int_one => (Ok tt, (arrays, self))
  | dims dimensions =>
      match value with
      | py_unyt_array r =>
          match arrays !! r with
          | None => (Err (AttributeError "units"), (arrays, self))
          | Some q =>
              if dimension_eqb (units_dimensions (units q)) dimensions
              then (Ok tt,
                    (<[r := convert_to_base unit_system q]> arrays,
                     set_field name (Some r) self))
              else (Err (InvalidUnitEquivalence ("Convert to " +:+ name)),
                    (arrays, self))
          end
      | _ => (Err (TypeError "You must provide quantities as unyt arrays."),
              (arrays, self))
      end
  end.


(** What [generate_dataset] returns: an object of a class made for the
    particle type, which has a property for every required field. *)
Record generated : Type := mk_generated {
  properties : list (string * field_dimensions dimension);
  instance : dataset }.

(** The loop of [generate_dataset] over the required fields. *)
Fixpoint make_properties (particle_name : string) (names : list string)
    : outcome (list (string * field_dimensions dimension)) :=
  match names with
  | [] => Ok []
  | name :: names' =>
      match generate_dimensions particle_name name with
      | None => Err (KeyError name)
      | Some dimensions =>
          match make_properties particle_name names' with
          | Err e => Err e
          | Ok props => Ok ((name, dimensions) :: props)
          end
      end
  end.

Definition generate_dataset (unit_system : unit_system UnitSystem)
    (particle_type : nat) : outcome generated :=
  match getitem particle_name_underscores particle_type with
  | None => Err (KeyError (pretty particle_type))
  | Some particle_name =>
      match getitem particle_name_class particle_type with
      | None => Err (KeyError (pretty particle_type))
      | Some particle_nice_name =>
          match required_fields particle_name with
          | None => Err (AttributeError particle_name)
          | Some names =>
              match make_properties particle_name names with
              | Err e => Err e
              | Ok props =>
                  match __init__ unit_system particle_type with
                  | Err e => Err e
                  | Ok empty_dataset => Ok (mk_generated props empty_dataset)
                  end
              end
          end
      end
  end.

(** ** class SWIFTWriterDataset *)

(** [box_size : Union[list, float]] *)
Inductive box : Type :=
| box_float (x : Q)
| box_floats (x : list Q).

(** An object of the class: the attributes set by [__init__] and the
    attributes named after the particle types. *)
Record swift_writer : Type := mk_writer {
  unit_system_of : unit_system UnitSystem;
  box_size : box;
  compress : bool;
  datasets : gmap string generated }.

Definition set_dataset (name : string) (g : generated) (self : swift_writer)
    : swift_writer :=
  mk_writer (unit_system_of self) (box_size self) (compress self)
    (<[name := g]> (datasets self)).

(** [getattr(self, name)] *)
Definition getattr_dataset (self : swift_writer) (name : string) : outcome generated :=
  match datasets self !! name with
  | Some g => Ok g
  | None => Err (AttributeError name)
  end.

(** The loop of [create_particle_datasets]. *)
Fixpoint create_particle_datasets_loop (items : list (nat * string))
    (self : swift_writer) : outcome swift_writer :=
  match items with
  | [] => Ok self
  | (number, name) :: items' =>
      match generate_dataset (unit_system_of self) number with
      | Err e => Err e
      | Ok g => create_particle_datasets_loop items' (set_dataset name g self)
      end
  end.

Definition create_particle_datasets (self : swift_writer) : outcome swift_writer :=
  create_particle_datasets_loop particle_name_underscores self.

Definition new_writer (unit_system : unit_system UnitSystem) (box_size : box)
    (compress : bool) : outcome swift_writer :=
  create_particle_datasets (mk_writer unit_system box_size compress ∅).

Definition _generate_ids (self : swift_writer) (names_to_write : list string)
    : outcome unit :=
  Err NotImplementedError.

(** [name in names_to_write] *)
Definition contains (names : list string) (name : string) : bool :=
  existsb (String.eqb name) names.

(** The first loop of [_write_metadata]: [number_of_particles[number] =
    getattr(self, name).n_part] for the names to write. *)
Fixpoint number_of_particles_loop (self : swift_writer) (items : list (nat * string))
    (names_to_write : list string) (number_of_particles : list nat)
    : outcome (list nat) :=
  match items with
  | [] => Ok number_of_particles
  | (number, name) :: items' =>
      if contains names_to_write name then
        match getattr_dataset self name with
        | Err e => Err e
        | Ok g =>
            match n_part (instance g) with
            | None => Err (AttributeError "n_part")
            | Some n =>
                if (number <? length number_of_particles)%nat
                then number_of_particles_loop self items' names_to_write
                       (<[number := n]> number_of_particles)
                else Err IndexError
            end
        end
      else number_of_particles_loop self items' names_to_write number_of_particles
  end.

Definition box_attr (b : box) : attr_value :=
  match b with
  | box_float x => box_scalar x
  | box_floats x => box_list x
  end.

(** [_write_metadata(handle, names_to_write)], on the content of the
    file *)
Definition _write_metadata (self : swift_writer) (names_to_write : list string)
    (file : h5file) : outcome unit * h5file :=
  match number_of_particles_loop self particle_name_underscores names_to_write
          (replicate 6 0%nat) with
  | Err e => (Err e, file)
  | Ok number_of_particles =>
      (Ok tt,
       file ++ [("Header",
                 [("BoxSize", box_attr (box_size self));
                  ("NumPart_Total", counts number_of_particles);
                  ("NumPart_Total_HighWord", counts (replicate 6 0%nat));
                  ("Flag_Entropy_ICs", integer 0)])])
  end.

(** [_write_units(handle)]: the four conversion factors are computed, in
    the order of the dict literal, before the group is made, so that an
    exception of unyt leaves the file without the group. *)
Definition _write_units (self : swift_writer) (file : h5file) : outcome unit * h5file :=
  match unit_system_of self with
  | by_name _ => (Err (AttributeError "base_units"), file)
  | by_object system =>
      match cgs_conversion system dim_mass with
      | Err e => (Err e, file)
      | Ok mass =>
      match cgs_conversion system dim_length with
      | Err e => (Err e, file)
      | Ok length =>
      match cgs_conversion system dim_time with
      | Err e => (Err e, file)
      | Ok time =>
      match cgs_conversion system dim_temperature with
      | Err e => (Err e, file)
      | Ok temperature =>
          (Ok tt,
           file ++ [("Units",
                     [("Unit mass in cgs (U_M)", factor mass);
                      ("Unit length in cgs (U_L)", factor length);
                      ("Unit time in cgs (U_t)", factor time);
                      ("Unit current in cgs (U_I)", integer 1);
                      ("Unit temperature in cgs (U_T)", factor temperature)])])
      end end end end
  end.

(** The first loop of [write]: the datasets that are not empty are
    checked, and those that are consistent are to be written. *)
Fixpoint scan (arrays : list quantity) (names : list string) (self : swift_writer)
    (names_to_write : list string) (generate_ids : bool)
    : outcome (list string * bool) * swift_writer :=
  match names with
  | [] => (Ok (names_to_write, generate_ids), self)
  | name :: names' =>
      match getattr_dataset self name with
      | Err e => (Err e, self)
      | Ok this_dataset =>
          match check_empty (instance this_dataset) with
          | Err e => (Err e, self)
          | Ok true => scan arrays names' self names_to_write generate_ids
          | Ok false =>
              match check_consistent arrays (instance this_dataset) with
              | (Err e, checked) =>
                  (Err e,
                   set_dataset name (mk_generated (properties this_dataset) checked) self)
              | (Ok consistent, checked) =>
                  let self :=
                    set_dataset name (mk_generated (properties this_dataset) checked)
                      self in
                  if consistent then
                    scan arrays names' self (names_to_write ++ [name])
                      (if generate_ids
                       then default false (requires_particle_ids_before_write checked)
                       else false)
                  else scan arrays names' self names_to_write generate_ids
              end
          end
      end
  end.

(** The last loop of [write]. *)
Fixpoint write_particle_groups (self : swift_writer) (names_to_write : list string)
    (file : h5file) : outcome unit :=
  match names_to_write with
  | [] => Ok tt
  | name :: names' =>
      match getattr_dataset self name with
      | Err e => Err e
      | Ok g =>
          match write_particle_group (instance g) file with
          | Err e => Err e
          | Ok _ => write_particle_groups self names' file
          end
      end
  end.

(** [write(filename)]: the outcome, the writer and the files it leaves.
    The file is made empty when it is opened, and what was written to it
    before an exception stays. *)
Definition write (arrays : list quantity) (filename : string) (self : swift_writer)
    (files : gmap string h5file)
    : outcome unit * (swift_writer * gmap string h5file) :=
  match scan arrays (map snd particle_name_underscores) self [] false with
  | (Err e, self) => (Err e, (self, files))
  | (Ok (names_to_write, generate_ids), self) =>
      match (if generate_ids then _generate_ids self names_to_write else Ok tt) with
      | Err e => (Err e, (self, files))
      | Ok _ =>
          match _write_metadata self names_to_write [] with
          | (Err e, file) => (Err e, (self, <[filename := file]> files))
          | (Ok _, file) =>
              match _write_units self file with
              | (Err e, file) => (Err e, (self, <[filename := file]> files))
              | (Ok _, file) =>
                  match write_particle_groups self names_to_write file with
                  | Err e => (Err e, (self, <[filename := file]> files))
                  | Ok _ => (Ok tt, (self, <[filename := file]> files))
                  end
              end
          end
      end
  end.

(** The datasets named [names] of a writer are all there and all
    empty. *)
Definition all_empty (names : list string) (self : swift_writer) : Prop :=
  forall name, name ∈ names ->
    exists g, datasets self !! name = Some g /\ check_empty (instance g) = Ok true.

(** The header of a file with no particle. *)
Definition empty_header (b : box) : string * list (string * attr_value) :=
  ("Header",
   [("BoxSize", box_attr b);
    ("NumPart_Total", counts (replicate 6 0%nat));
    ("NumPart_Total_HighWord", counts (replicate 6 0%nat));
    ("Flag_Entropy_ICs", integer 0)]).

End Writer.

(** ** Example collaborators *)

(** Units whose dimensions are names, a unit system being the name of its
    length unit.  The base units of a unit system are symbols, which have
    no [get_conversion_factor]. *)
Definition example_units : Units := {|
  dimension := string;
  dimension_eqb := String.eqb;
  UnitSystem := string;
  units_dimensions := fun u =>
    if String.eqb u "cm" || String.eqb u "kpc" then "length"
    else if String.eqb u "g" then "mass" else "other";
  convert_to_base := fun _ q =>
    Build_quantity (shape q) ("base_" +:+ units q) (data q);
  cgs_conversion := fun _ _ => Err (AttributeError "get_conversion_factor") |}.

(** A metadata of two particle types with three required fields each. *)
Definition example_dimensions (particle_name name : string)
    : option (field_dimensions string) :=
  if String.eqb name "coordinates" then Some (dims "length")
  else if String.eqb name "masses" then Some (dims "mass")
  else if String.eqb name "particle_ids" then Some int_one
  else None.

Definition example_required_fields (particle_name : string) : option (list string) :=
  if String.eqb particle_name "gas" || String.eqb particle_name "dark_matter"
  then Some ["coordinates"; "masses"; "particle_ids"] else None.

Definition example_metadata : @Metadata example_units :=
  @Build_Metadata example_units
    [(0%nat, "gas"); (1%nat, "dark_matter")]
    [(0%nat, "Gas"); (1%nat, "DarkMatter")]
    example_required_fields
    example_dimensions.

(** Three particles: their coordinates and their masses, and a third array
    of four masses. *)
Definition example_arrays : list quantity :=
  [Build_quantity [3; 3]%nat "cm" [0; 0; 0; 1; 0; 0; 0; 1; 0];
   Build_quantity [3]%nat "g" [1; 1; 1];
   Build_quantity [4]%nat "g" [1; 1; 1; 1]].

(** The gas dataset after [gas.coordinates] and [gas.masses] were set to
    the first two arrays, and the dark matter dataset with nothing set. *)
Definition example_gas : @dataset example_units :=
  @mk_dataset example_units (by_object "cm") 0 "PartType0" "gas"
    (<["coordinates" := Some 0%nat]>
       (<["masses" := Some 1%nat]> (<["particle_ids" := None]> ∅)))
    None None.

Definition example_dark_matter : @dataset example_units :=
  @mk_dataset example_units (by_object "cm") 1 "PartType1" "dark_matter"
    (<["coordinates" := None]>
       (<["masses" := None]> (<["particle_ids" := None]> ∅)))
    None None.

Definition example_properties : list (string * field_dimensions string) :=
  [("coordinates", dims "length"); ("masses", dims "mass"); ("particle_ids", int_one)].

(** A writer whose gas has been given coordinates and masses. *)
Definition example_writer : @swift_writer example_units :=
  @mk_writer example_units (by_object "cm") (box_float 1) true
    (<["gas" := @mk_generated example_units example_properties example_gas]>
       (<["dark_matter" :=
            @mk_generated example_units example_properties example_dark_matter]> ∅)).

(** The writer with gas to write, as [check_consistent] leaves it. *)
Definition example_checked_writer : @swift_writer example_units :=
  @set_dataset example_units "gas"
    (@mk_generated example_units example_properties
       (@set_n_part example_units 3 (@set_requires example_units true example_gas)))
    example_writer.

End writer.

(** * Results *)

(** ** Running the primitives of the store *)

Lemma bind_run {A B : Type} (m : Py A) (k : A -> Py B) s x s' :
  m s = (Return x, s') -> bind m k s = k x s'.
Proof. unfold bind. intros ->. reflexivity. Qed.

Lemma bind_raise {A B : Type} (m : Py A) (k : A -> Py B) s e s' :
  m s = (Raise e, s') -> bind m k s = (Raise e, s').
Proof. unfold bind. intros ->. reflexivity. Qed.

Lemma load_run (s : store) r o : s !! r = Some o -> load r s = (Return o, s).
Proof. unfold load. intros ->. reflexivity. Qed.

Lemma getattr_run {A : Type} (attr : cosmo_array.t -> A) (s : store) r o :
  s !! r = Some o -> getattr attr r s = (Return (attr o), s).
Proof. intros H. unfold getattr. rewrite (bind_run _ _ _ _ _ (load_run _ _ _ H)). reflexivity. Qed.

Lemma setattr_run (s : store) r o assign :
  s !! r = Some o -> setattr r assign s = (Return tt, <[r := assign o]> s).
Proof. unfold setattr. intros ->. reflexivity. Qed.

Lemma lookup_last (s : store) o : (s ++ [o]) !! length s = Some o.
Proof. apply list_lookup_middle. reflexivity. Qed.

Lemma insert_last (s : store) o o' : <[length s := o']> (s ++ [o]) = s ++ [o'].
Proof.
  rewrite insert_app_r_alt by lia. rewrite Nat.sub_diag. reflexivity.
Qed.

Lemma lookup_old (s : store) o r x : s !! r = Some x -> (s ++ [o]) !! r = Some x.
Proof. intros H. apply lookup_app_l_Some. exact H. Qed.

Lemma setattr_last (s : store) o assign :
  setattr (length s) assign (s ++ [o]) = (Return tt, s ++ [assign o]).
Proof. rewrite (setattr_run _ _ _ _ (lookup_last s o)), insert_last. reflexivity. Qed.

Lemma getattr_last {A : Type} (attr : cosmo_array.t -> A) (s : store) o :
  getattr attr (length s) (s ++ [o]) = (Return (attr o), s ++ [o]).
Proof. apply getattr_run, lookup_last. Qed.

Lemma getattr_old {A : Type} (attr : cosmo_array.t -> A) (s : store) o r x :
  s !! r = Some x -> getattr attr r (s ++ [o]) = (Return (attr x), s ++ [o]).
Proof. intros H. apply getattr_run, lookup_old, H. Qed.

Lemma bind_assoc_run {A B C : Type} (m : Py A) (k : A -> Py B) (k' : B -> Py C) s :
  bind (bind m k) k' s = bind m (fun x => bind (k x) k') s.
Proof. unfold bind. destruct (m s) as [[x|e] s']; reflexivity. Qed.

Lemma bind_pure_run {A B : Type} (x : A) (k : A -> Py B) s :
  bind (pure x) k s = k x s.
Proof. reflexivity. Qed.

Lemma bind_lift_run {A B : Type} (x : A) (k : A -> Py B) s :
  bind (lift (Return x)) k s = k x s.
Proof. reflexivity. Qed.

Lemma bind_alloc_run {B : Type} o (k : ref -> Py B) (s : store) :
  bind (alloc o) k s = k (length s) (s ++ [o]).
Proof. reflexivity. Qed.

Lemma bind_returns {A B : Type} (m : Py A) (k : A -> Py B) s y s' :
  bind m k s = (Return y, s') ->
  exists x s1, m s = (Return x, s1) /\ k x s1 = (Return y, s').
Proof.
  unfold bind. destruct (m s) as [[x|e] s1]; [eauto|discriminate].
Qed.

Lemma for_each_length {A B : Type} (f : A -> Py B) (l : list A) s ys s' :
  for_each f l s = (Return ys, s') -> length ys = length l.
Proof.
  revert s ys s'. induction l as [|x l IH]; simpl; intros s ys s' H.
  - injection H as <- _. reflexivity.
  - apply bind_returns in H as (y & s1 & _ & H).
    apply bind_returns in H as (ys' & s2 & Hl & H).
    injection H as <- _. simpl. f_equal. eapply IH, Hl.
Qed.

Lemma getattr_returns {A : Type} (attr : cosmo_array.t -> A) r (s : store) x s' :
  getattr attr r s = (Return x, s') ->
  s' = s /\ exists o, s !! r = Some o /\ x = attr o.
Proof.
  unfold getattr, bind, load. destruct (s !! r) as [o|]; [|discriminate].
  intros [= <- <-]. eauto.
Qed.

Lemma setattr_returns r assign (s : store) u s' :
  setattr r assign s = (Return u, s') ->
  exists o, s !! r = Some o /\ s' = <[r := assign o]> s.
Proof.
  unfold setattr. destruct (s !! r) as [o|]; [|discriminate].
  intros [= _ <-]. eauto.
Qed.

(** One step of a computation whose first action is known. *)
Ltac run_with lem := rewrite (bind_run _ _ _ _ _ lem).
Ltac run :=
  repeat first
    [ rewrite bind_assoc_run
    | rewrite bind_pure_run
    | rewrite bind_lift_run
    | rewrite bind_alloc_run
    | rewrite (bind_run _ _ _ _ _ (setattr_last _ _ _))
    | rewrite (bind_run _ _ _ _ _ (getattr_last _ _ _))
    | rewrite setattr_last
    | match goal with
      | H : ?s !! ?r = Some ?o |- _ =>
          first
            [ rewrite (bind_run _ _ _ _ _ (getattr_old _ _ _ _ _ H))
            | rewrite (bind_run _ _ _ _ _ (getattr_run _ _ _ _ H))
            | rewrite (bind_run _ _ _ _ _ (load_run _ _ _ H))
            | rewrite (bind_run _ _ _ _ _ (setattr_run _ _ _ _ H)) ]
      end ].

Section MethodRuns.

Context {U : Unyt}.
Import cosmo_array.

Lemma new_run input_array units cosmo_factor comoving compression (s : store) :
  __new__ input_array units cosmo_factor comoving compression s =
  (Return (length s), s ++ [mk input_array units cosmo_factor comoving compression]).
Proof.
  unfold __new__.
  rewrite (bind_run _ _ _ (length s) (s ++ [mk input_array units None true None]))
    by reflexivity.
  run. reflexivity.
Qed.

Lemma unyt_in_units_run (s : store) r o :
  s !! r = Some o ->
  unyt_in_units (units o) r s =
  (Return (array (length s)),
   s ++ [mk (np.astype np.float64 (d o)) (units o) None true None]).
Proof.
  intros H. unfold unyt_in_units.
  run. rewrite String.eqb_refl.
  rewrite (bind_run (lift _) _ _ (d o) s) by reflexivity.
  run_with (new_run (np.astype np.float64 (d o)) (units o) None true None s).
  reflexivity.
Qed.

(** The wrapper after a [func] that returned a new array at the end of the
    store. *)
Lemma propagate_run func (s : store) self o data :
  s !! self = Some o ->
  func self s = (Return (array (length s)), s ++ [data]) ->
  _propagate_cosmo_array_attributes func self s =
  (Return (array (length s)),
   s ++ [set_comoving (comoving o) (set_cosmo_factor (cosmo_factor o) data)]).
Proof.
  intros H Hf. unfold _propagate_cosmo_array_attributes.
  run_with Hf.
  rewrite (bind_run _ _ _ _ _ (getattr_old cosmo_factor s data self o H)).
  rewrite (bind_run _ _ _ _ _ (setattr_last _ _ _)).
  rewrite (bind_run _ _ _ _ _ (getattr_old comoving s _ self o H)).
  rewrite (bind_run _ _ _ _ _ (setattr_last _ _ _)).
  reflexivity.
Qed.

Lemma in_units_run (s : store) r o :
  s !! r = Some o ->
  in_units (units o) r s =
  (Return (array (length s)),
   s ++ [mk (np.astype np.float64 (d o)) (units o) (cosmo_factor o) (comoving o) None]).
Proof.
  intros H. unfold in_units.
  rewrite (propagate_run _ s r o _ H (unyt_in_units_run s r o H)).
  reflexivity.
Qed.

Lemma convert_to_comoving_noop (s : store) r o :
  s !! r = Some o -> comoving o = true ->
  convert_to_comoving r s = (Return tt, s).
Proof.
  intros H Hc. unfold convert_to_comoving. run. rewrite Hc. reflexivity.
Qed.

Lemma convert_to_physical_noop (s : store) r o :
  s !! r = Some o -> comoving o = false ->
  convert_to_physical r s = (Return tt, s).
Proof.
  intros H Hc. unfold convert_to_physical. run. rewrite Hc. reflexivity.
Qed.

Lemma convert_to_comoving_run (s : store) r o a_factor values :
  s !! r = Some o -> comoving o = false ->
  a_factor_of (cosmo_factor o) = Return a_factor ->
  np.itruediv (d o) a_factor = Return values ->
  convert_to_comoving r s =
  (Return tt, <[r := mk values (units o) (cosmo_factor o) true (compression o)]> s).
Proof.
  intros H Hc Ha Hv. unfold convert_to_comoving. run. rewrite Hc. run.
  rewrite (bind_run (lift _) _ _ a_factor s) by (unfold lift; rewrite Ha; reflexivity).
  rewrite (bind_run (lift _) _ _ values s) by (unfold lift; rewrite Hv; reflexivity).
  run.
  assert (Hlt : (r < length s)%nat) by (eapply lookup_lt_Some; eauto).
  rewrite (setattr_run _ r _ _ (list_lookup_insert_eq s r _ Hlt)).
  rewrite list_insert_insert_eq. reflexivity.
Qed.

Lemma convert_to_physical_run (s : store) r o a_factor values :
  s !! r = Some o -> comoving o = true ->
  a_factor_of (cosmo_factor o) = Return a_factor ->
  np.imul (d o) a_factor = Return values ->
  convert_to_physical r s =
  (Return tt, <[r := mk values (units o) (cosmo_factor o) false (compression o)]> s).
Proof.
  intros H Hc Ha Hv. unfold convert_to_physical. run. rewrite Hc. run.
  rewrite (bind_run (lift _) _ _ a_factor s) by (unfold lift; rewrite Ha; reflexivity).
  rewrite (bind_run (lift _) _ _ values s) by (unfold lift; rewrite Hv; reflexivity).
  run.
  assert (Hlt : (r < length s)%nat) by (eapply lookup_lt_Some; eauto).
  rewrite (setattr_run _ r _ _ (list_lookup_insert_eq s r _ Hlt)).
  rewrite list_insert_insert_eq. reflexivity.
Qed.

Lemma to_physical_run (s : store) r o a_factor :
  s !! r = Some o -> comoving o = true ->
  a_factor_of (cosmo_factor o) = Return a_factor ->
  to_physical r s =
  (Return (length s),
   s ++ [mk (floats (map (fun x => x * a_factor) (np.items (d o)))) (units o)
           (cosmo_factor o) false None]).
Proof.
  intros H Hc Ha. unfold to_physical. run.
  run_with (in_units_run s r o H). unfold on_array.
  erewrite bind_run.
  2: { eapply convert_to_physical_run;
         [apply lookup_last | exact Hc | exact Ha | reflexivity]. }
  rewrite insert_last. reflexivity.
Qed.

Lemma to_comoving_run (s : store) r o a_factor :
  s !! r = Some o -> comoving o = false ->
  a_factor_of (cosmo_factor o) = Return a_factor ->
  to_comoving r s =
  (Return (length s),
   s ++ [mk (floats (map (fun x => x / a_factor) (np.items (d o)))) (units o)
           (cosmo_factor o) true None]).
Proof.
  intros H Hc Ha. unfold to_comoving. run.
  run_with (in_units_run s r o H). unfold on_array.
  erewrite bind_run.
  2: { eapply convert_to_comoving_run;
         [apply lookup_last | exact Hc | exact Ha | reflexivity]. }
  rewrite insert_last. reflexivity.
Qed.

Lemma to_comoving_copy (s : store) r o :
  s !! r = Some o -> comoving o = true ->
  to_comoving r s =
  (Return (length s),
   s ++ [mk (np.astype np.float64 (d o)) (units o) (cosmo_factor o) true None]).
Proof.
  intros H Hc. unfold to_comoving. run.
  run_with (in_units_run s r o H). unfold on_array.
  erewrite bind_run.
  2: { eapply convert_to_comoving_noop; [apply lookup_last | exact Hc]. }
  rewrite Hc. reflexivity.
Qed.

End MethodRuns.

(** ** No method writes to an object it was not called on *)

Section Keeps.

Context {U : Unyt}.
Import cosmo_array.

Variable p : store.

Lemma keeps_weaken {A : Type} (m : Py A) (Q R : A -> Prop) :
  keeps p m Q -> (forall x, Q x -> R x) -> keeps p m R.
Proof.
  intros Hm HQR s Hs. destruct (Hm s Hs) as [H1 H2]. split; [exact H1|].
  intros x Hx. apply HQR, H2, Hx.
Qed.

Lemma keeps_pure {A : Type} (x : A) (Q : A -> Prop) : Q x -> keeps p (pure x) Q.
Proof. intros HQ s Hs. split; [exact Hs|]. simpl. intros y [= <-]. exact HQ. Qed.

Lemma keeps_throw {A : Type} (e : exn) (Q : A -> Prop) : keeps p (throw e) Q.
Proof. intros s Hs. split; [exact Hs|]. simpl. discriminate. Qed.

Lemma keeps_lift {A : Type} (r : result A) : keeps p (lift r) (fun _ => True).
Proof. intros s Hs. split; [exact Hs|]. auto. Qed.

Lemma keeps_bind {A B : Type} (m : Py A) (k : A -> Py B) (Q : A -> Prop)
    (R : B -> Prop) :
  keeps p m Q -> (forall x, Q x -> keeps p (k x) R) -> keeps p (bind m k) R.
Proof.
  intros Hm Hk s Hs. unfold bind.
  destruct (Hm s Hs) as [H1 H2].
  destruct (m s) as [[x|e] s'] eqn:Hrun; simpl in *.
  - apply (Hk x (H2 x eq_refl) s' H1).
  - split; [exact H1|]. discriminate.
Qed.

Lemma keeps_load (r : ref) : keeps p (load r) (fun _ => True).
Proof. intros s Hs. unfold load. destruct (s !! r); simpl; auto. Qed.

Lemma keeps_getattr {A : Type} (attr : cosmo_array.t -> A) (r : ref) :
  keeps p (getattr attr r) (fun _ => True).
Proof.
  unfold getattr. eapply keeps_bind; [apply keeps_load|].
  intros o _. apply keeps_pure. exact I.
Qed.

Lemma keeps_alloc (o : cosmo_array.t) :
  keeps p (alloc o) (fun r => (length p <= r)%nat).
Proof.
  intros s Hs. unfold alloc. simpl. split.
  - etransitivity; [exact Hs|]. apply prefix_app_r. reflexivity.
  - intros x [= <-]. apply prefix_length, Hs.
Qed.

Lemma keeps_setattr (r : ref) assign :
  (length p <= r)%nat -> keeps p (setattr r assign) (fun _ => True).
Proof.
  intros Hr s [k ->]. unfold setattr.
  destruct ((p ++ k) !! r) eqn:Hl; simpl; (split; [|auto]).
  - rewrite insert_app_r_alt by exact Hr. apply prefix_app_r. reflexivity.
  - apply prefix_app_r. reflexivity.
Qed.

Lemma keeps_for_each {A B : Type} (f : A -> Py B) (l : list A) :
  (forall x, keeps p (f x) (fun _ => True)) ->
  keeps p (for_each f l) (fun _ => True).
Proof.
  intros Hf. induction l as [|x l IH]; simpl.
  - apply keeps_pure. exact I.
  - eapply keeps_bind; [apply Hf|]. intros y _.
    eapply keeps_bind; [apply IH|]. intros ys _. apply keeps_pure. exact I.
Qed.

Lemma keeps_getattr_default {A : Type} (attr : cosmo_array.t -> A) default v :
  keeps p (getattr_default attr default v) (fun _ => True).
Proof. destruct v; simpl; [apply keeps_getattr | apply keeps_pure; exact I]. Qed.

Lemma keeps_new input_array units cosmo_factor comoving compression :
  keeps p (__new__ input_array units cosmo_factor comoving compression)
    (fun r => (length p <= r)%nat).
Proof.
  unfold __new__. eapply keeps_bind; [apply keeps_alloc|]. intros r Hr.
  eapply keeps_bind; [apply keeps_setattr, Hr|]. intros _ _.
  eapply keeps_bind; [apply keeps_setattr, Hr|]. intros _ _.
  eapply keeps_bind; [apply keeps_setattr, Hr|]. intros _ _.
  apply keeps_pure, Hr.
Qed.

Lemma keeps_unyt_in_units units' self :
  keeps p (unyt_in_units units' self) (made_after p).
Proof.
  unfold unyt_in_units. eapply keeps_bind; [apply keeps_load|]. intros o _.
  eapply keeps_bind; [apply keeps_lift|]. intros data _.
  eapply keeps_bind; [apply keeps_new|]. intros r Hr.
  apply keeps_pure. exact Hr.
Qed.

Lemma keeps_propagate func self :
  keeps p (func self) (made_after p) ->
  keeps p (_propagate_cosmo_array_attributes func self) (made_after p).
Proof.
  intros Hf. unfold _propagate_cosmo_array_attributes.
  eapply keeps_bind; [exact Hf|]. intros [r|x] Hr.
  - eapply keeps_bind; [apply keeps_getattr|]. intros cf _.
    eapply keeps_bind; [apply keeps_setattr, Hr|]. intros _ _.
    eapply keeps_bind; [apply keeps_getattr|]. intros cm _.
    eapply keeps_bind; [apply keeps_setattr, Hr|]. intros _ _.
    apply keeps_pure, Hr.
  - apply keeps_pure. exact I.
Qed.

Lemma keeps_in_units units' self : keeps p (in_units units' self) (made_after p).
Proof. apply keeps_propagate, keeps_unyt_in_units. Qed.

Lemma keeps_convert_to_comoving self :
  (length p <= self)%nat -> keeps p (convert_to_comoving self) (fun _ => True).
Proof.
  intros Hr. unfold convert_to_comoving.
  eapply keeps_bind; [apply keeps_getattr|]. intros [|] _.
  - apply keeps_pure. exact I.
  - eapply keeps_bind; [apply keeps_getattr|]. intros values _.
    eapply keeps_bind; [apply keeps_getattr|]. intros cf _.
    eapply keeps_bind; [apply keeps_lift|]. intros a_factor _.
    eapply keeps_bind; [apply keeps_lift|]. intros values' _.
    eapply keeps_bind; [apply keeps_setattr, Hr|]. intros _ _.
    apply keeps_setattr, Hr.
Qed.

Lemma keeps_convert_to_physical self :
  (length p <= self)%nat -> keeps p (convert_to_physical self) (fun _ => True).
Proof.
  intros Hr. unfold convert_to_physical.
  eapply keeps_bind; [apply keeps_getattr|]. intros [|] _.
  - eapply keeps_bind; [apply keeps_getattr|]. intros values _.
    eapply keeps_bind; [apply keeps_getattr|]. intros cf _.
    eapply keeps_bind; [apply keeps_lift|]. intros a_factor _.
    eapply keeps_bind; [apply keeps_lift|]. intros values' _.
    eapply keeps_bind; [apply keeps_setattr, Hr|]. intros _ _.
    apply keeps_setattr, Hr.
  - apply keeps_pure. exact I.
Qed.

Lemma keeps_on_array {A : Type} (m : ref -> Py A) name v :
  (forall r, (length p <= r)%nat -> keeps p (m r) (fun _ => True)) ->
  made_after p v ->
  keeps p (on_array m name v) (fun r => (length p <= r)%nat).
Proof.
  intros Hm Hv. destruct v as [r|x]; simpl.
  - eapply keeps_bind; [apply Hm, Hv|]. intros _ _. apply keeps_pure, Hv.
  - apply keeps_throw.
Qed.

Lemma keeps_to_comoving self :
  keeps p (to_comoving self) (fun r => (length p <= r)%nat).
Proof.
  unfold to_comoving. eapply keeps_bind; [apply keeps_getattr|]. intros u _.
  eapply keeps_bind; [apply keeps_in_units|]. intros v Hv.
  apply keeps_on_array; [apply keeps_convert_to_comoving | exact Hv].
Qed.

Lemma keeps_to_physical self :
  keeps p (to_physical self) (fun r => (length p <= r)%nat).
Proof.
  unfold to_physical. eapply keeps_bind; [apply keeps_getattr|]. intros u _.
  eapply keeps_bind; [apply keeps_in_units|]. intros v Hv.
  apply keeps_on_array; [apply keeps_convert_to_physical | exact Hv].
Qed.

Lemma keeps_comoving_input inp : keeps p (comoving_input inp) (fun _ => True).
Proof.
  destruct inp as [r|x]; simpl; [|apply keeps_throw].
  eapply keeps_bind; [apply keeps_getattr|]. intros [|] _; simpl.
  - apply keeps_pure. exact I.
  - eapply keeps_bind; [apply keeps_to_comoving|]. intros r' _.
    apply keeps_pure. exact I.
Qed.

Lemma keeps_as_operand inp : keeps p (as_operand inp) (fun _ => True).
Proof.
  destruct inp as [r|x]; simpl; [|apply keeps_pure; exact I].
  eapply keeps_bind; [apply keeps_load|]. intros o _. apply keeps_pure. exact I.
Qed.

Lemma keeps_resolve_frames cm inputs :
  keeps p (resolve_frames cm inputs) (fun _ => True).
Proof.
  unfold resolve_frames. destruct (forallb id cm); [apply keeps_pure; exact I|].
  destruct (negb (existsb id cm)); [apply keeps_pure; exact I|].
  eapply keeps_bind; [apply keeps_for_each, keeps_comoving_input|].
  intros inputs' _. apply keeps_pure. exact I.
Qed.

Lemma keeps_array_ufunc self ufunc method inputs :
  keeps p (__array_ufunc__ self ufunc method inputs) (fun r => (length p <= r)%nat).
Proof.
  unfold __array_ufunc__.
  eapply keeps_bind; [apply keeps_for_each; intros; apply keeps_getattr_default|].
  intros cm _.
  eapply keeps_bind; [apply keeps_for_each; intros; apply keeps_getattr_default|].
  intros cf _.
  eapply keeps_bind; [apply keeps_for_each; intros; apply keeps_getattr_default|].
  intros comp _.
  eapply keeps_bind; [apply keeps_resolve_frames|]. intros resolved _.
  cbv zeta.
  eapply keeps_bind; [apply keeps_for_each, keeps_as_operand|]. intros operands _.
  eapply keeps_bind; [apply keeps_lift|]. intros base _.
  eapply keeps_bind; [apply keeps_alloc|]. intros ret_arr Hr.
  eapply keeps_bind; [apply keeps_setattr, Hr|]. intros _ _.
  eapply keeps_bind; [apply keeps_lift|]. intros f _.
  eapply keeps_bind; [apply keeps_lift|]. intros ret_cf _.
  eapply keeps_bind; [apply keeps_setattr, Hr|]. intros _ _.
  eapply keeps_bind; [apply keeps_setattr, Hr|]. intros _ _.
  apply keeps_pure, Hr.
Qed.

End Keeps.

Lemma keeps_lookup {A : Type} (s : store) (m : Py A) (post : A -> Prop) r o :
  keeps s m post -> s !! r = Some o -> (m s).2 !! r = Some o.
Proof.
  intros Hm Hr. destruct (Hm s) as [Hp _]; [reflexivity|].
  eapply prefix_lookup_Some; eauto.
Qed.

(** ** The conversions between comoving and physical *)

Section Conversions.

Context {U : Unyt}.
Import cosmo_array.




End Conversions.

(** ** The dispatch of ufuncs *)

Lemma call_returns (f : rule) (cf : list cf_value) (c : cf_value) :
  call f cf = Return c ->
  f = _multiply_cosmo_factor /\
  exists c1 c2, cf = [Some c1; Some c2] /\
    Qeq_bool (cosmo_factor.scale_factor c1) (cosmo_factor.scale_factor c2) = true /\
    c = Some (cosmo_factor.new (Sympy.mul (cosmo_factor.expr c1) (cosmo_factor.expr c2))
                (cosmo_factor.scale_factor c1)).
Proof.
  destruct f; destruct cf as [|x [|y [|z cf]]]; simpl; try discriminate.
  destruct x as [c1|], y as [c2|]; simpl; try discriminate.
  destruct (Qeq_bool _ _) eqn:Hs; simpl; [|discriminate].
  intros [= <-]. split; [reflexivity|]. exists c1, c2. auto.
Qed.

Lemma call_stub (f : rule) (cf1 cf2 : cf_value) :
  f <> _multiply_cosmo_factor ->
  call f [cf1; cf2] = Raise (if takes_two f then NotImplementedError else TypeError).
Proof. destruct f; simpl; intros H; try reflexivity. contradiction. Qed.

Section Dispatch.

Context {U : Unyt}.
Import cosmo_array.

(** What a call that returns went through. *)
Lemma array_ufunc_returns self ufunc method inputs (s : store) r s' :
  __array_ufunc__ self ufunc method inputs s = (Return r, s') ->
  exists f cf c,
    registry_getitem ufunc = Return f /\ length cf = length inputs /\
    call f cf = Return c.
Proof.
  unfold __array_ufunc__. intros H.
  apply bind_returns in H as (cm & s1 & _ & H).
  apply bind_returns in H as (cf & s2 & Hcf & H).
  apply bind_returns in H as (comp & s3 & _ & H).
  apply bind_returns in H as (resolved & s4 & _ & H).
  cbv zeta in H.
  apply bind_returns in H as (operands & s5 & _ & H).
  apply bind_returns in H as (base & s6 & _ & H).
  apply bind_returns in H as (ret_arr & s7 & _ & H).
  apply bind_returns in H as (? & s8 & _ & H).
  apply bind_returns in H as (f & s9 & Hf & H).
  apply bind_returns in H as (c & s10 & Hc & H).
  exists f, cf, c. unfold lift in Hf, Hc.
  injection Hf as Hf _. injection Hc as Hc _.
  split; [exact Hf|]. split; [eapply for_each_length, Hcf | exact Hc].
Qed.

Lemma stub_never_returns self ufunc method inputs (s : store) f :
  registry_getitem ufunc = Return f -> f <> _multiply_cosmo_factor ->
  forall r s', __array_ufunc__ self ufunc method inputs s <> (Return r, s').
Proof.
  intros Hf Hne r s' H.
  apply array_ufunc_returns in H as (f' & cf & c & Hf' & _ & Hc).
  rewrite Hf in Hf'. injection Hf' as <-.
  apply call_returns in Hc as [Hm _]. contradiction.
Qed.

(** One cosmo_array as the only input. *)
Lemma array_ufunc_unary self ufunc method (s : store) r o base :
  s !! r = Some o ->
  unyt_array_ufunc ufunc method [quantity (d o) (units o)] = Return base ->
  __array_ufunc__ self ufunc method [array r] s =
  match registry_getitem ufunc with
  | Raise e => (Raise e, s ++ [mk base.1 base.2 None (comoving o) None])
  | Return f =>
      match call f [cosmo_factor o] with
      | Raise e => (Raise e, s ++ [mk base.1 base.2 None (comoving o) None])
      | Return c =>
          (Return (length s),
           s ++ [mk base.1 base.2 c (comoving o) (compression o)])
      end
  end.
Proof.
  intros H Hb. unfold __array_ufunc__. cbn [for_each getattr_default]. run.
  unfold resolve_frames. cbn [forallb existsb id].
  assert (Hcm : (if comoving o && true then true else
                   if negb (comoving o || false) then false else true) = comoving o)
    by (destruct (comoving o); reflexivity).
  destruct (comoving o) eqn:Hc; cbn [andb orb negb]; run;
    cbn [fst snd for_each as_operand]; run; rewrite Hb; run;
    unfold set_comoving; cbn [d units cosmo_factor comoving compression];
    (destruct (registry_getitem ufunc) as [f|e]; [|reflexivity]); run;
    (destruct (call f [cosmo_factor o]) as [c|e]; [|reflexivity]); run;
    reflexivity.
Qed.

(** A comoving cosmo_array and a value that is no cosmo_array. *)
Lemma array_ufunc_plain_right self ufunc method (s : store) r o x base :
  s !! r = Some o -> comoving o = true ->
  unyt_array_ufunc ufunc method [quantity (d o) (units o); bare x] = Return base ->
  __array_ufunc__ self ufunc method [array r; foreign x] s =
  match registry_getitem ufunc with
  | Raise e => (Raise e, s ++ [mk base.1 base.2 None true None])
  | Return f =>
      match call f [cosmo_factor o; None] with
      | Raise e => (Raise e, s ++ [mk base.1 base.2 None true None])
      | Return c => (Return (length s), s ++ [mk base.1 base.2 c true None])
      end
  end.
Proof.
  intros H Hc Hb. unfold __array_ufunc__. cbn [for_each getattr_default]. run.
  unfold resolve_frames. rewrite Hc. cbn [forallb id andb]. run.
  cbn [fst snd for_each as_operand]. run. rewrite Hb. run.
  unfold set_comoving; cbn [d units cosmo_factor comoving compression].
  assert (Hcomp : (if one_distinct [compression o; None]
                   then hd None [compression o; None] else None) = None).
  { unfold one_distinct. cbn [forallb hd]. destruct (compression o); reflexivity. }
  rewrite Hcomp.
  (destruct (registry_getitem ufunc) as [f|e]; [|reflexivity]); run.
  unfold cf_value in *.
  (destruct (call f _) as [c|e]; [|reflexivity]); run.
  reflexivity.
Qed.

Lemma array_ufunc_plain_left self ufunc method (s : store) r o x base :
  s !! r = Some o -> comoving o = true ->
  unyt_array_ufunc ufunc method [bare x; quantity (d o) (units o)] = Return base ->
  __array_ufunc__ self ufunc method [foreign x; array r] s =
  match registry_getitem ufunc with
  | Raise e => (Raise e, s ++ [mk base.1 base.2 None true None])
  | Return f =>
      match call f [None; cosmo_factor o] with
      | Raise e => (Raise e, s ++ [mk base.1 base.2 None true None])
      | Return c => (Return (length s), s ++ [mk base.1 base.2 c true None])
      end
  end.
Proof.
  intros H Hc Hb. unfold __array_ufunc__. cbn [for_each getattr_default]. run.
  unfold resolve_frames. rewrite Hc. cbn [forallb id andb]. run.
  cbn [fst snd for_each as_operand]. run. rewrite Hb. run.
  unfold set_comoving; cbn [d units cosmo_factor comoving compression].
  assert (Hcomp : (if one_distinct [None; compression o]
                   then hd None [None; compression o] else None) = None).
  { unfold one_distinct. cbn [forallb hd]. destruct (bool_decide _); reflexivity. }
  rewrite Hcomp.
  (destruct (registry_getitem ufunc) as [f|e]; [|reflexivity]); run.
  unfold cf_value in *.
  (destruct (call f _) as [c|e]; [|reflexivity]); run.
  reflexivity.
Qed.

End Dispatch.

Lemma operations_of_spec (f : rule) (ufunc : np.ufunc) :
  getitem _cosmo_factor_ufunc_registry ufunc = Some f -> In ufunc (operations_of f).
Proof. destruct ufunc; destruct f; vm_compute; intros H; try discriminate; tauto. Qed.

Lemma strip_operations :
  operations_of _return_without_cosmo_factor =
  [np.logaddexp; np.logaddexp2; np.rint; np.sign; np.exp; np.exp2; np.log;
   np.log2; np.log10; np.expm1; np.log1p; np.sin; np.cos; np.tan; np.sinh;
   np.cosh; np.tanh; np.arcsin; np.arccos; np.arctan; np.arcsinh; np.arccosh;
   np.arctanh; np.deg2rad; np.rad2deg; np.logical_not; np.isreal; np.iscomplex;
   np.isfinite; np.isinf; np.isnan; np.signbit; np.frexp; np.isnat].
Proof. reflexivity. Qed.

Section DispatchResults.

Context {U : Unyt}.
Import cosmo_array.

(** C3, as amended: an operation that the registry maps to
    [_return_without_cosmo_factor] never returns, whatever its inputs; on
    one cosmo_array, once the base class has computed its result, the call
    raises NotImplementedError and the store has gained the result object
    only, which nothing refers to. *)
Theorem strip_rule_raises (ufunc : np.ufunc)
    (Hstrip : registry_getitem ufunc = Return _return_without_cosmo_factor)
    (self : ref) (method : string) (s : store) :
  (forall inputs r s',
      __array_ufunc__ self ufunc method inputs s <> (Return r, s')) /\
  (forall r o base,
      s !! r = Some o ->
      unyt_array_ufunc ufunc method [quantity (d o) (units o)] = Return base ->
      __array_ufunc__ self ufunc method [array r] s =
      (Raise NotImplementedError, s ++ [mk base.1 base.2 None (comoving o) None])).
Proof.
  split.
  - intros inputs. apply (stub_never_returns _ _ _ _ _ _ Hstrip). discriminate.
  - intros r o base Hr Hb.
    rewrite (array_ufunc_unary self ufunc method s r o base Hr Hb), Hstrip.
    reflexivity.
Qed.

(** C8: [sqrt], [square] and [reciprocal] never return, whatever their
    inputs; on one cosmo_array, once the base class has computed its
    result, the call raises NotImplementedError, and no array with a
    cosmo_factor comes out of it. *)
Theorem unimplemented_rules_raise (ufunc : np.ufunc)
    (Hufunc : In ufunc [np.sqrt; np.square; np.reciprocal])
    (self : ref) (method : string) (s : store) :
  (forall inputs r s',
      __array_ufunc__ self ufunc method inputs s <> (Return r, s')) /\
  (forall r o base,
      s !! r = Some o ->
      unyt_array_ufunc ufunc method [quantity (d o) (units o)] = Return base ->
      __array_ufunc__ self ufunc method [array r] s =
      (Raise NotImplementedError, s ++ [mk base.1 base.2 None (comoving o) None])).
Proof.
  assert (Hf : exists f, registry_getitem ufunc = Return f /\
                         f <> _multiply_cosmo_factor /\
                         forall c, call f [c] = Raise NotImplementedError).
  { simpl in Hufunc. destruct Hufunc as [<-|[<-|[<-|[]]]];
      eexists; (split; [reflexivity|]); split; (discriminate || reflexivity). }
  destruct Hf as (f & Hf & Hne & Hcall). split.
  - intros inputs. apply (stub_never_returns _ _ _ _ _ _ Hf Hne).
  - intros r o base Hr Hb.
    rewrite (array_ufunc_unary self ufunc method s r o base Hr Hb), Hf, Hcall.
    reflexivity.
Qed.

(** C4, as amended: for an operation whose rule is not
    [_multiply_cosmo_factor], on a comoving cosmo_array and a value that is
    no cosmo_array, in either order: the call never returns; once the base
    class has computed its result the rule raises (NotImplementedError for
    a rule that takes two cosmo_factors), no input was converted, and the
    object that was to be returned was marked comoving. *)
Theorem plain_operand_not_implemented (ufunc : np.ufunc) (f : rule)
    (Hf : registry_getitem ufunc = Return f)
    (Hstub : f <> _multiply_cosmo_factor)
    (self : ref) (method : string) (s : store) (r : ref) (o : cosmo_array.t)
    (x : np.ndarray)
    (Hr : s !! r = Some o)
    (Hcomoving : comoving o = true) :
  (forall r' s',
      __array_ufunc__ self ufunc method [array r; foreign x] s <> (Return r', s') /\
      __array_ufunc__ self ufunc method [foreign x; array r] s <> (Return r', s')) /\
  (forall base,
      unyt_array_ufunc ufunc method [quantity (d o) (units o); bare x] = Return base ->
      __array_ufunc__ self ufunc method [array r; foreign x] s =
      (Raise (if takes_two f then NotImplementedError else TypeError),
       s ++ [mk base.1 base.2 None true None])) /\
  (forall base,
      unyt_array_ufunc ufunc method [bare x; quantity (d o) (units o)] = Return base ->
      __array_ufunc__ self ufunc method [foreign x; array r] s =
      (Raise (if takes_two f then NotImplementedError else TypeError),
       s ++ [mk base.1 base.2 None true None])).
Proof.
  split; [|split].
  - intros r' s'. split; apply (stub_never_returns _ _ _ _ _ _ Hf Hstub).
  - intros base Hb.
    rewrite (array_ufunc_plain_right self ufunc method s r o x base Hr Hcomoving Hb).
    rewrite Hf, (call_stub f _ _ Hstub). reflexivity.
  - intros base Hb.
    rewrite (array_ufunc_plain_left self ufunc method s r o x base Hr Hcomoving Hb).
    rewrite Hf, (call_stub f _ _ Hstub). reflexivity.
Qed.

(** C5: whatever the ufunc, the inputs and the outcome, every object that
    was in the store before the call (the inputs among them) is in it
    unchanged after the call: values, units, comoving, cosmo_factor and
    compression.  The same holds of [to_comoving] and [to_physical], whose
    result is a new object: the conversion in place is done on that
    one. *)
Theorem operands_are_not_written (s : store) (r : ref) (o : cosmo_array.t)
    (Hr : s !! r = Some o) :
  (forall self ufunc method inputs,
      (__array_ufunc__ self ufunc method inputs s).2 !! r = Some o) /\
  (forall self,
      (to_comoving self s).2 !! r = Some o /\
      (to_physical self s).2 !! r = Some o /\
      (forall copied, (to_comoving self s).1 = Return copied -> copied <> r) /\
      (forall copied, (to_physical self s).1 = Return copied -> copied <> r)).
Proof.
  assert (Hlt : (r < length s)%nat) by (eapply lookup_lt_Some; eauto).
  split.
  - intros self ufunc method inputs.
    exact (keeps_lookup s _ _ r o (keeps_array_ufunc s self ufunc method inputs) Hr).
  - intros self.
    split; [exact (keeps_lookup s _ _ r o (keeps_to_comoving s self) Hr)|].
    split; [exact (keeps_lookup s _ _ r o (keeps_to_physical s self) Hr)|].
    split; intros copied Hrun.
    + destruct (keeps_to_comoving s self s) as [_ Hpost]; [reflexivity|].
      specialize (Hpost copied Hrun). lia.
    + destruct (keeps_to_physical s self s) as [_ Hpost]; [reflexivity|].
      specialize (Hpost copied Hrun). lia.
Qed.

End DispatchResults.

(** ** Pickling *)

Section Pickling.

Context {U : Unyt}.
Import cosmo_array.

Lemma setstate_run (s : store) target t (state : state_tuple) restored :
  s !! target = Some t ->
  unyt_setstate state.2 = Return restored ->
  __setstate__ target state s =
  (Return tt,
   <[target := mk restored.1 restored.2 state.1.1 state.1.2 (compression t)]> s).
Proof.
  intros Ht Hb. unfold __setstate__. rewrite Hb. run.
  assert (Hlt : (target < length s)%nat) by (eapply lookup_lt_Some; eauto).
  rewrite (bind_run _ _ _ _ _
             (setattr_run _ target _ _ (list_lookup_insert_eq s target _ Hlt))).
  rewrite list_insert_insert_eq.
  rewrite (bind_run _ _ _ _ _
             (setattr_run _ target _ _ (list_lookup_insert_eq s target _ Hlt))).
  rewrite list_insert_insert_eq.
  rewrite (setattr_run _ target _ _ (list_lookup_insert_eq s target _ Hlt)).
  rewrite list_insert_insert_eq.
  reflexivity.
Qed.

(** C9: the state that [__reduce__] gives is the pair (cosmo_factor,
    comoving) followed by the state of the base class; [__setstate__]
    hands all but that pair to the base class and assigns the pair.  When
    the base class restores its own state from what it reduced to, the
    unpickled object has the values, units, comoving and cosmo_factor of
    the pickled one. *)
Theorem pickle_round_trip
    (Hbase : forall d units, unyt_setstate (unyt_reduce d units) = Return (d, units))
    (s : store) (self : ref) (o fresh : cosmo_array.t)
    (Hself : s !! self = Some o) :
  __reduce__ self s =
    (Return ((cosmo_factor o, comoving o), unyt_reduce (d o) (units o)), s) /\
  (forall target t (state : state_tuple) restored,
      s !! target = Some t ->
      unyt_setstate state.2 = Return restored ->
      __setstate__ target state s =
      (Return tt,
       <[target := mk restored.1 restored.2 state.1.1 state.1.2 (compression t)]> s)) /\
  pickle_roundtrip fresh self s =
    (Return (length s),
     s ++ [mk (d o) (units o) (cosmo_factor o) (comoving o) (compression fresh)]).
Proof.
  assert (Hred : __reduce__ self s =
                 (Return ((cosmo_factor o, comoving o), unyt_reduce (d o) (units o)), s)).
  { unfold __reduce__. run. reflexivity. }
  split; [exact Hred|]. split; [apply setstate_run|].
  unfold pickle_roundtrip. rewrite (bind_run _ _ _ _ _ Hred). run.
  erewrite bind_run.
  2: { apply setstate_run; [apply lookup_last | apply Hbase]. }
  rewrite insert_last. reflexivity.
Qed.

End Pickling.

(** ** The wrapped accessors *)

Section Accessors.

Context {U : Unyt}.
Import cosmo_array.

Lemma ndarray_method_run f (s : store) self o :
  s !! self = Some o ->
  ndarray_method f self s =
  (Return (array (length s)),
   s ++ [mk (f (d o)) (units o) (cosmo_factor o) (comoving o) (compression o)]).
Proof.
  intros H. unfold ndarray_method, __array_finalize__, getattr_default. run.
  reflexivity.
Qed.

(** An accessor that numpy serves by a new array finalized with the
    receiver gives an array with the three attributes of the receiver. *)
Lemma accessor_run f (s : store) self o :
  s !! self = Some o ->
  accessor f self s =
  (Return (array (length s)),
   s ++ [mk (f (d o)) (units o) (cosmo_factor o) (comoving o) (compression o)]).
Proof.
  intros H. unfold accessor.
  rewrite (propagate_run _ s self o _ H (ndarray_method_run f s self o H)).
  reflexivity.
Qed.

End Accessors.

(** The wrapper, whatever [func] does: when the wrapped call returns a
    cosmo_array, that array has the cosmo_factor and the comoving flag that
    the receiver has at that point. *)
Lemma propagate_copies func (s : store) self r s' :
  _propagate_cosmo_array_attributes func self s = (Return (array r), s') ->
  exists o o',
    s' !! self = Some o /\ s' !! r = Some o' /\
    cosmo_array.cosmo_factor o' = cosmo_array.cosmo_factor o /\
    cosmo_array.comoving o' = cosmo_array.comoving o.
Proof.
  unfold _propagate_cosmo_array_attributes. intros H.
  apply bind_returns in H as (ret & s1 & _ & H).
  destruct ret as [r0|x]; [|discriminate].
  apply bind_returns in H as (cf & s2 & Hcf & H).
  apply bind_returns in H as (? & s3 & Hset1 & H).
  apply bind_returns in H as (cm & s4 & Hcm & H).
  apply bind_returns in H as (? & s5 & Hset2 & H).
  injection H as <- <-.
  apply getattr_returns in Hcf as (-> & a1 & E1 & ->).
  apply setattr_returns in Hset1 as (b1 & E2 & ->).
  apply getattr_returns in Hcm as (-> & a3 & E3 & ->).
  apply setattr_returns in Hset2 as (b3 & E4 & ->).
  assert (Hlt : (r0 < length s1)%nat) by (eapply lookup_lt_Some; eauto).
  assert (Hlt' : (r0 < length (<[r0:=cosmo_array.set_cosmo_factor
                                       (cosmo_array.cosmo_factor a1) b1]> s1))%nat)
    by (rewrite length_insert; exact Hlt).
  rewrite list_lookup_insert_eq in E4 by exact Hlt. injection E4 as <-.
  destruct (decide (self = r0)) as [->|Hne].
  - rewrite list_lookup_insert_eq in E3 by exact Hlt. injection E3 as <-.
    eexists _, _. split; [apply list_lookup_insert_eq; exact Hlt'|].
    split; [apply list_lookup_insert_eq; exact Hlt'|]. auto.
  - rewrite list_lookup_insert_ne in E3 by congruence.
    rewrite E1 in E3. injection E3 as <-.
    exists a1. eexists. rewrite list_lookup_insert_ne by congruence.
    rewrite list_lookup_insert_ne by congruence.
    split; [exact E1|]. split; [apply list_lookup_insert_eq; exact Hlt'|].
    split; reflexivity.
Qed.

(** ** The algebra of cosmo_factors *)

Section CosmoFactorAlgebra.

Import cosmo_factor.

Lemma additive_spec verb (e1 e2 : t) :
  (exists r, additive verb e1 (Some e2) = Return r) <->
  (scale_factor e1 == scale_factor e2 /\ expr e1 = expr e2).
Proof.
  unfold additive. rewrite <- Qeq_bool_iff, <- Z.eqb_eq.
  unfold Sympy.eqb.
  destruct (Qeq_bool _ _), (Z.eqb _ _); simpl; split;
    try (intros [r Hr]; discriminate); try (intros [? ?]; discriminate);
    eauto.
Qed.

Lemma additive_result verb (e1 e2 r : t) :
  additive verb e1 (Some e2) = Return r ->
  expr r = expr e1 /\ scale_factor r = scale_factor e1 /\
  expr r = expr e2 /\ scale_factor r == scale_factor e2.
Proof.
  intros H. assert (Hex : exists r, additive verb e1 (Some e2) = Return r) by eauto.
  apply additive_spec in Hex as [Hs He].
  unfold additive in H.
  destruct (Qeq_bool _ _); simpl in H; [|discriminate].
  destruct (Sympy.eqb _ _); simpl in H; [|discriminate].
  injection H as <-. simpl. auto.
Qed.

Lemma additive_mismatch verb (e1 e2 : t) :
  (Qeq_bool (scale_factor e1) (scale_factor e2) = false ->
   additive verb e1 (Some e2) =
   Raise (InvalidScaleFactor
            (different_scale_factors verb (scale_factor e1) (scale_factor e2)))) /\
  (Qeq_bool (scale_factor e1) (scale_factor e2) = true -> expr e1 <> expr e2 ->
   additive verb e1 (Some e2) =
   Raise (InvalidScaleFactor (different_dependence verb (expr e1) (expr e2)))).
Proof.
  unfold additive. split.
  - intros ->. reflexivity.
  - intros -> Hne. simpl. unfold Sympy.eqb.
    destruct (Z.eqb_spec (expr e1) (expr e2)); [contradiction|reflexivity].
Qed.

Lemma additive_self verb (e : t) : additive verb e (Some e) = Return e.
Proof.
  unfold additive, Sympy.eqb. rewrite Qeq_bool_refl, Z.eqb_refl. simpl.
  destruct e. reflexivity.
Qed.

(** C2: [e1 + e2] and [e1 - e2] return exactly when the scale factors are
    equal and the expressions are equal, and then return a cosmo_factor
    with that expression and that scale factor, so [e + e] and [e - e] are
    [e] (and [==] to it whenever the a-factor exists).  Otherwise they
    raise InvalidScaleFactor, with the two scale factors when these differ
    and else with the two expressions. *)
Theorem additive_combination (e1 e2 : cosmo_factor.t) :
  ((exists r, __add__ e1 (Some e2) = Return r) <->
   (scale_factor e1 == scale_factor e2 /\ expr e1 = expr e2)) /\
  ((exists r, __sub__ e1 (Some e2) = Return r) <->
   (scale_factor e1 == scale_factor e2 /\ expr e1 = expr e2)) /\
  (forall r,
      __add__ e1 (Some e2) = Return r \/ __sub__ e1 (Some e2) = Return r ->
      expr r = expr e1 /\ scale_factor r = scale_factor e1 /\
      expr r = expr e2 /\ scale_factor r == scale_factor e2) /\
  (Qeq_bool (scale_factor e1) (scale_factor e2) = false ->
   __add__ e1 (Some e2) =
     Raise (InvalidScaleFactor
              (different_scale_factors "add" (scale_factor e1) (scale_factor e2))) /\
   __sub__ e1 (Some e2) =
     Raise (InvalidScaleFactor
              (different_scale_factors "subtract" (scale_factor e1) (scale_factor e2)))) /\
  (Qeq_bool (scale_factor e1) (scale_factor e2) = true -> expr e1 <> expr e2 ->
   __add__ e1 (Some e2) =
     Raise (InvalidScaleFactor (different_dependence "add" (expr e1) (expr e2))) /\
   __sub__ e1 (Some e2) =
     Raise (InvalidScaleFactor (different_dependence "subtract" (expr e1) (expr e2)))) /\
  (__add__ e1 (Some e1) = Return e1 /\ __sub__ e1 (Some e1) = Return e1) /\
  (forall x, a_factor e1 = Return x -> __eq__ e1 e1 = Return true).
Proof.
  unfold __add__, __sub__.
  split; [apply additive_spec|]. split; [apply additive_spec|].
  split; [intros r [H|H]; eapply additive_result; exact H|].
  split; [intros H; split; apply additive_mismatch; exact H|].
  split; [intros H Hne; split; apply additive_mismatch; assumption|].
  split; [split; apply additive_self|].
  intros x Hx. unfold __eq__. rewrite Hx, Qeq_bool_refl. reflexivity.
Qed.

End CosmoFactorAlgebra.

(** ** The examples of the specification, run *)

Section Examples.

Import cosmo_array.

#[local] Existing Instance example_unyt.

(** The a-factor of [a**3] at scale factor 0.5. *)
Example a_factor_of_density :
  cosmo_factor.a_factor (cosmo_factor.new 3%Z (1 # 2)) = Return (1 # 8).
Proof. reflexivity. Qed.

(** C1, as amended: the addition of the comoving array [1, 2, 3] and the
    physical array [0.5, 1, 1.5], both of exponent [a**1] at scale factor
    0.5, converts a copy of the physical one to comoving values [1, 2, 3],
    has the base class add to [2, 4, 6] and marks that sum comoving; then
    the rule of [add], [_preserve_cosmo_factor], raises
    NotImplementedError, and the call returns nothing.  The two inputs are
    as they were. *)
Theorem mixed_frame_addition_raises :
  registry_getitem np.add = Return _preserve_cosmo_factor /\
  exists converted sum,
    __array_ufunc__ 0%nat np.add "__call__" [array 0%nat; array 1%nat]
      [x_comoving; y_physical] =
    (Raise NotImplementedError, [x_comoving; y_physical; converted; sum]) /\
    Forall2 Qeq (np.items (d converted)) [1; 2; 3] /\
    comoving converted = true /\
    cosmo_factor converted = Some a_half /\
    Forall2 Qeq (np.items (d sum)) [2; 4; 6] /\
    comoving sum = true /\
    cosmo_factor sum = None.
Proof.
  split; [reflexivity|]. eexists _, _. split; [vm_compute; reflexivity|].
  simpl. repeat split; repeat constructor.
Qed.

(** C1, the claim as stated fails: that addition returns no array at all,
    so no comoving array of values [2, 4, 6] and exponent [a**1]. *)
Lemma mixed_frame_addition_returns_nothing :
  ~ exists r s' o',
      __array_ufunc__ 0%nat np.add "__call__" [array 0%nat; array 1%nat]
        [x_comoving; y_physical] = (Return r, s') /\
      s' !! r = Some o' /\
      comoving o' = true /\
      Forall2 Qeq (np.items (d o')) [2; 4; 6] /\
      cosmo_factor o' = Some a_half.
Proof. intros (r & s' & o' & H & _). vm_compute in H. discriminate H. Qed.

(** C3, the claim as stated fails: [sign], an operation of the Strip rule,
    on a cosmo_array returns no array, so none without cosmo_factor. *)
Lemma sign_returns_nothing :
  In np.sign (operations_of _return_without_cosmo_factor) /\
  ~ exists r s' o',
      __array_ufunc__ 0%nat np.sign "__call__" [array 0%nat] [x_comoving] =
      (Return r, s') /\
      s' !! r = Some o' /\
      cosmo_factor o' = None.
Proof.
  split; [vm_compute; tauto|].
  intros (r & s' & o' & H & _). vm_compute in H. discriminate H.
Qed.

(** C4, the claim as stated fails: the division of a comoving cosmo_array
    by a scalar, a registered operation, returns nothing. *)
Lemma divide_by_scalar_returns_nothing :
  registry_getitem np.divide = Return _divide_cosmo_factor /\
  ~ exists r s' o',
      __array_ufunc__ 0%nat np.divide "__call__" [array 0%nat; foreign (floats [2])]
        [x_comoving] = (Return r, s') /\
      s' !! r = Some o' /\
      comoving o' = comoving x_comoving.
Proof.
  split; [reflexivity|].
  intros (r & s' & o' & H & _). vm_compute in H. discriminate H.
Qed.

(** The product with a scalar, which has a rule: the rule multiplies the
    cosmo_factor of the array with [None]. *)
Example multiply_by_scalar_raises :
  __array_ufunc__ 0%nat np.multiply "__call__" [array 0%nat; foreign (floats [2])]
    [x_comoving] =
  (Raise (AttributeError "NoneType" "scale_factor"),
   [x_comoving; mk (floats [2; 4; 6]) "kpc" None true None]).
Proof. vm_compute. reflexivity. Qed.

(** A physical cosmo_array with a scalar: the frames are mixed, and the
    scalar is asked for its [comoving]. *)
Example physical_with_scalar_raises :
  (__array_ufunc__ 0%nat np.divide "__call__" [array 0%nat; foreign (floats [2])]
     [y_physical]).1 = Raise (AttributeError "foreign" "comoving").
Proof. vm_compute. reflexivity. Qed.

(** The product of two cosmo_arrays at one scale factor is the one
    operation that returns: the exponents add. *)
Example multiply_returns :
  __array_ufunc__ 0%nat np.multiply "__call__" [array 0%nat; array 0%nat]
    [x_comoving] =
  (Return 1%nat,
   [x_comoving;
    mk (floats [1; 4; 9]) "kpc*kpc" (Some (cosmo_factor.new 2%Z (1 # 2))) true None]).
Proof. vm_compute. reflexivity. Qed.

(** C10, at the failing input: [in_units] on an array read from a
    compressed dataset gives a cosmo_array with the comoving flag and the
    cosmo_factor of the source and with no compression, while an accessor
    that numpy serves keeps all three. *)
Theorem in_units_drops_compression :
  in_units "kpc" 0%nat [z_compressed] =
    (Return (array 1%nat),
     [z_compressed; mk (floats [1; 2; 3]) "kpc" (Some a_half) true None]) /\
  compression z_compressed = Some "gzip" /\
  accessor (np.take [2; 1; 0]%nat) 0%nat [z_compressed] =
    (Return (array 1%nat),
     [z_compressed; mk (floats [3; 2; 1]) "kpc" (Some a_half) true (Some "gzip")]).
Proof. repeat split. Qed.



(** A use of [strip_rule_raises]: [sign] of the physical example array. *)
Lemma strip_rule_raises_on_sign :
  __array_ufunc__ 0%nat np.sign "__call__" [array 0%nat] [y_physical] =
  (Raise NotImplementedError,
   [y_physical; mk (floats [1; 1; 1]) "dimensionless" None false None]).
Proof.
  apply (proj2 (strip_rule_raises np.sign eq_refl 0%nat "__call__" [y_physical])
           0%nat y_physical (floats [1; 1; 1], "dimensionless")); reflexivity.
Defined.

(** A use of [unimplemented_rules_raise]: [sqrt] of the comoving example
    array. *)
Lemma unimplemented_rules_raise_on_sqrt :
  __array_ufunc__ 0%nat np.sqrt "__call__" [array 0%nat] [x_comoving] =
  (Raise NotImplementedError,
   [x_comoving; mk (floats [1; 2; 3]) "sqrt(kpc)" None true None]).
Proof.
  apply (proj2 (unimplemented_rules_raise np.sqrt ltac:(simpl; auto) 0%nat "__call__"
                  [x_comoving])
           0%nat x_comoving (floats [1; 2; 3], "sqrt(kpc)")); reflexivity.
Defined.

(** A use of [plain_operand_not_implemented]: the comoving example array
    divided by 2. *)
Lemma plain_operand_not_implemented_on_divide :
  __array_ufunc__ 0%nat np.divide "__call__" [array 0%nat; foreign (floats [2])] [x_comoving] =
  (Raise NotImplementedError,
   [x_comoving; mk (floats [1 # 2; 2 # 2; 3 # 2]) "kpc" None true None]).
Proof.
  apply (proj1 (proj2 (plain_operand_not_implemented np.divide _divide_cosmo_factor
                         eq_refl ltac:(discriminate) 0%nat "__call__" [x_comoving]
                         0%nat x_comoving (floats [2]) eq_refl eq_refl))
           (floats [1 # 2; 2 # 2; 3 # 2], "kpc")).
  reflexivity.
Defined.

(** A use of [operands_are_not_written]: the physical operand of the
    mixed-frame addition. *)
Lemma operands_are_not_written_by_add :
  (__array_ufunc__ 0%nat np.add "__call__" [array 0%nat; array 1%nat]
     [x_comoving; y_physical]).2 !! 1%nat = Some y_physical.
Proof.
  exact (proj1 (operands_are_not_written [x_comoving; y_physical] 1%nat y_physical
                  eq_refl)
           0%nat np.add "__call__" [array 0%nat; array 1%nat]).
Defined.



(** A use of [pickle_round_trip] with the example unyt. *)
Lemma pickle_round_trip_of_z :
  pickle_roundtrip y_physical 0%nat [z_compressed] =
  (Return 1%nat, [z_compressed; mk (floats [1; 2; 3]) "kpc" (Some a_half) true None]).
Proof.
  apply (pickle_round_trip (U := example_unyt) ltac:(intros; reflexivity)
           [z_compressed] 0%nat z_compressed y_physical eq_refl).
Defined.

End Examples.

(** A use of [propagate_copies]: [in_units] of the compressed example
    array. *)
Lemma propagate_copies_in_units :
  exists o o',
    [z_compressed; cosmo_array.mk (floats [1; 2; 3]) "kpc" (Some a_half) true None] !! 0%nat
      = Some o /\
    [z_compressed; cosmo_array.mk (floats [1; 2; 3]) "kpc" (Some a_half) true None] !! 1%nat
      = Some o' /\
    cosmo_array.cosmo_factor o' = cosmo_array.cosmo_factor o /\
    cosmo_array.comoving o' = cosmo_array.comoving o.
Proof.
  apply (propagate_copies (unyt_in_units (U := example_unyt) "kpc") [z_compressed]
           0%nat 1%nat).
  reflexivity.
Defined.

(** ** More of the algebra of cosmo_factors *)

Section CosmoFactorProducts.

Import cosmo_factor.

Lemma multiplicative_returns (c1 c2 c : t) :
  (__mul__ c1 (Some c2) = Return c ->
   scale_factor c1 == scale_factor c2 /\
   c = new (Sympy.mul (expr c1) (expr c2)) (scale_factor c1)) /\
  (__truediv__ c1 (Some c2) = Return c ->
   scale_factor c1 == scale_factor c2 /\
   c = new (Sympy.div (expr c1) (expr c2)) (scale_factor c1)).
Proof.
  unfold __mul__, __truediv__.
  destruct (Qeq_bool (scale_factor c1) (scale_factor c2)) eqn:Hs; simpl;
    split; intros [= <-]; (split; [apply Qeq_bool_iff, Hs|reflexivity]).
Qed.

(** [__mul__] and [__truediv__] return exactly when the two scale factors
    are equal, whatever the two expressions; the result has the product or
    the quotient of the expressions and the scale factor of the left
    operand.  Otherwise they raise InvalidScaleFactor with the two scale
    factors. *)
Theorem multiplicative_combination (c1 c2 : cosmo_factor.t) :
  ((exists c, __mul__ c1 (Some c2) = Return c) <->
   scale_factor c1 == scale_factor c2) /\
  ((exists c, __truediv__ c1 (Some c2) = Return c) <->
   scale_factor c1 == scale_factor c2) /\
  (Qeq_bool (scale_factor c1) (scale_factor c2) = true ->
   __mul__ c1 (Some c2) =
     Return (new (Sympy.mul (expr c1) (expr c2)) (scale_factor c1)) /\
   __truediv__ c1 (Some c2) =
     Return (new (Sympy.div (expr c1) (expr c2)) (scale_factor c1))) /\
  (Qeq_bool (scale_factor c1) (scale_factor c2) = false ->
   __mul__ c1 (Some c2) =
     Raise (InvalidScaleFactor
              (different_scale_factors "multiply" (scale_factor c1) (scale_factor c2))) /\
   __truediv__ c1 (Some c2) =
     Raise (InvalidScaleFactor
              (different_scale_factors "divide" (scale_factor c1) (scale_factor c2)))).
Proof.
  unfold __mul__, __truediv__. rewrite <- Qeq_bool_iff.
  destruct (Qeq_bool (scale_factor c1) (scale_factor c2)); simpl.
  - repeat split; eauto; discriminate.
  - repeat split; try discriminate; intros [c H]; discriminate.
Qed.

(** Dividing a product by its right factor, or multiplying a quotient by
    its divisor, gives the left operand back, expression and scale
    factor. *)
Theorem product_quotient_round_trip (c1 c2 : cosmo_factor.t)
    (Hs : Qeq_bool (scale_factor c1) (scale_factor c2) = true) :
  (exists c, __mul__ c1 (Some c2) = Return c /\ __truediv__ c (Some c2) = Return c1) /\
  (exists c, __truediv__ c1 (Some c2) = Return c /\ __mul__ c (Some c2) = Return c1).
Proof.
  unfold __mul__, __truediv__. rewrite Hs. simpl.
  split; eexists; (split; [reflexivity|]); cbn [scale_factor expr]; rewrite Hs; simpl;
    unfold Sympy.mul, Sympy.div; destruct c1 as [e1 s1]; cbn [expr scale_factor];
    do 2 f_equal; lia.
Qed.

(** [==] is the equality of a-factors, not of cosmo_factors: two factors
    of exponent zero are [==] at any two scale factors, while their sum
    raises InvalidScaleFactor as soon as the scale factors differ. *)
Theorem equal_is_not_addable (s1 s2 : Q)
    (Hdiff : Qeq_bool s1 s2 = false) :
  __eq__ (new 0%Z s1) (new 0%Z s2) = Return true /\
  __ne__ (new 0%Z s1) (new 0%Z s2) = Return false /\
  __add__ (new 0%Z s1) (Some (new 0%Z s2)) =
    Raise (InvalidScaleFactor (different_scale_factors "add" s1 s2)).
Proof.
  unfold __eq__, __ne__, compare_a_factors, a_factor, Sympy.subs, __add__, additive.
  cbn [expr scale_factor]. rewrite Hdiff.
  change (0 <? 0)%Z with false. rewrite !andb_false_r. simpl. auto.
Qed.

End CosmoFactorProducts.

(** ** More on the conversions *)

Section MoreConversions.

Context {U : Unyt}.
Import cosmo_array.

Lemma convert_to_comoving_raise (s : store) self o e :
  s !! self = Some o -> comoving o = false ->
  a_factor_of (cosmo_factor o) = Raise e ->
  convert_to_comoving self s = (Raise e, s).
Proof.
  intros H Hc Ha. unfold convert_to_comoving. run. rewrite Hc. run.
  rewrite (bind_raise (lift _) _ s e s) by (unfold lift; rewrite Ha; reflexivity).
  reflexivity.
Qed.

Lemma convert_to_physical_raise (s : store) self o e :
  s !! self = Some o -> comoving o = true ->
  a_factor_of (cosmo_factor o) = Raise e ->
  convert_to_physical self s = (Raise e, s).
Proof.
  intros H Hc Ha. unfold convert_to_physical. run. rewrite Hc. run.
  rewrite (bind_raise (lift _) _ s e s) by (unfold lift; rewrite Ha; reflexivity).
  reflexivity.
Qed.

Lemma to_comoving_raise (s : store) self o e :
  s !! self = Some o -> comoving o = false ->
  a_factor_of (cosmo_factor o) = Raise e ->
  to_comoving self s =
  (Raise e,
   s ++ [mk (np.astype np.float64 (d o)) (units o) (cosmo_factor o) false None]).
Proof.
  intros H Hc Ha. unfold to_comoving. run.
  run_with (in_units_run s self o H). unfold on_array. rewrite Hc.
  erewrite bind_raise; [reflexivity|].
  eapply convert_to_comoving_raise; [apply lookup_last | reflexivity | exact Ha].
Qed.

Lemma to_physical_raise (s : store) self o e :
  s !! self = Some o -> comoving o = true ->
  a_factor_of (cosmo_factor o) = Raise e ->
  to_physical self s =
  (Raise e,
   s ++ [mk (np.astype np.float64 (d o)) (units o) (cosmo_factor o) true None]).
Proof.
  intros H Hc Ha. unfold to_physical. run.
  run_with (in_units_run s self o H). unfold on_array. rewrite Hc.
  erewrite bind_raise; [reflexivity|].
  eapply convert_to_physical_raise; [apply lookup_last | reflexivity | exact Ha].
Qed.

Lemma to_physical_copy (s : store) self o :
  s !! self = Some o -> comoving o = false ->
  to_physical self s =
  (Return (length s),
   s ++ [mk (np.astype np.float64 (d o)) (units o) (cosmo_factor o) false None]).
Proof.
  intros H Hc. unfold to_physical. run.
  run_with (in_units_run s self o H). unfold on_array.
  erewrite bind_run.
  2: { eapply convert_to_physical_noop; [apply lookup_last | exact Hc]. }
  rewrite Hc. reflexivity.
Qed.

Lemma convert_to_physical_integers (s : store) r o a_factor :
  s !! r = Some o -> comoving o = true ->
  a_factor_of (cosmo_factor o) = Return a_factor ->
  np.dtype_of (d o) = np.int64 ->
  convert_to_physical r s = (Raise TypeError, s).
Proof.
  intros H Hc Ha Hd. unfold convert_to_physical. run. rewrite Hc. run.
  rewrite (bind_run (lift _) _ _ a_factor s) by (unfold lift; rewrite Ha; reflexivity).
  rewrite (bind_raise (lift _) _ s TypeError s)
    by (unfold lift, np.imul; rewrite Hd; reflexivity).
  reflexivity.
Qed.

(** [convert_to_physical] on an array that is physical returns with the
    store as it was.  On a comoving array of floats whose cosmo_factor has
    an a-factor it returns, and the receiver then holds the products of
    its values with the a-factor, is physical and has the units, the
    cosmo_factor and the compression it had.  On a comoving array of
    integers the multiplication in place raises TypeError and the array is
    as it was, still comoving.  A second call right after a call that
    returned changes nothing. *)
Theorem convert_to_physical_spec (s : store) (self : ref) (o : cosmo_array.t)
    (Hself : s !! self = Some o) :
  (comoving o = false -> convert_to_physical self s = (Return tt, s)) /\
  (forall a_factor,
      comoving o = true ->
      a_factor_of (cosmo_factor o) = Return a_factor ->
      np.dtype_of (d o) = np.float64 ->
      exists s',
        convert_to_physical self s = (Return tt, s') /\
        s' !! self =
          Some (mk (floats (map (fun x => x * a_factor) (np.items (d o)))) (units o)
                  (cosmo_factor o) false (compression o))) /\
  (forall a_factor,
      comoving o = true ->
      a_factor_of (cosmo_factor o) = Return a_factor ->
      np.dtype_of (d o) = np.int64 ->
      convert_to_physical self s = (Raise TypeError, s)) /\
  (forall s1,
      convert_to_physical self s = (Return tt, s1) ->
      convert_to_physical self s1 = (Return tt, s1)).
Proof.
  split; [|split; [|split]].
  - intros Hc. exact (convert_to_physical_noop s self o Hself Hc).
  - intros a_factor Hc Ha Hd. eexists. split.
    + apply (convert_to_physical_run s self o a_factor
               (floats (map (fun x => x * a_factor) (np.items (d o)))) Hself Hc Ha).
      unfold np.imul. rewrite Hd. reflexivity.
    + apply list_lookup_insert_eq. eapply lookup_lt_Some; eauto.
  - intros a_factor Hc Ha Hd.
    exact (convert_to_physical_integers s self o a_factor Hself Hc Ha Hd).
  - intros s1 Hrun. destruct (comoving o) eqn:Hc.
    + destruct (a_factor_of (cosmo_factor o)) as [a_factor|e] eqn:Ha.
      * destruct (np.dtype_of (d o)) eqn:Hd.
        -- rewrite (convert_to_physical_run s self o a_factor
                      (floats (map (fun x => x * a_factor) (np.items (d o))))
                      Hself Hc Ha) in Hrun
             by (unfold np.imul; rewrite Hd; reflexivity).
           injection Hrun as <-.
           eapply convert_to_physical_noop;
             [apply list_lookup_insert_eq; eapply lookup_lt_Some; eauto | reflexivity].
        -- rewrite (convert_to_physical_integers s self o a_factor Hself Hc Ha Hd)
             in Hrun.
           discriminate.
      * rewrite (convert_to_physical_raise s self o e Hself Hc Ha) in Hrun.
        discriminate.
    + rewrite (convert_to_physical_noop s self o Hself Hc) in Hrun.
      injection Hrun as <-. exact (convert_to_physical_noop s self o Hself Hc).
Qed.

(** A conversion that cannot read an a-factor raises and writes nothing:
    when the a-factor of the array's cosmo_factor raises, the in-place
    conversion that would use it raises the same exception with the store
    as it was, and [to_comoving] and [to_physical] raise it too.  An array
    whose cosmo_factor is [None] is such a case, with AttributeError. *)
Theorem conversion_without_a_factor (s : store) (self : ref) (o : cosmo_array.t)
    (e : exn)
    (Hself : s !! self = Some o)
    (Ha : a_factor_of (cosmo_factor o) = Raise e) :
  (comoving o = false ->
   convert_to_comoving self s = (Raise e, s) /\
   (to_comoving self s).1 = Raise e) /\
  (comoving o = true ->
   convert_to_physical self s = (Raise e, s) /\
   (to_physical self s).1 = Raise e) /\
  (cosmo_factor o = None -> e = AttributeError "NoneType" "a_factor").
Proof.
  split; [|split].
  - intros Hc. split; [exact (convert_to_comoving_raise s self o e Hself Hc Ha)|].
    rewrite (to_comoving_raise s self o e Hself Hc Ha). reflexivity.
  - intros Hc. split; [exact (convert_to_physical_raise s self o e Hself Hc Ha)|].
    rewrite (to_physical_raise s self o e Hself Hc Ha). reflexivity.
  - intros Hn. rewrite Hn in Ha. simpl in Ha. congruence.
Qed.

(** What [to_comoving] and [to_physical] return: a new object at the end
    of the store, in the frame asked for, with the units and the
    cosmo_factor of the receiver and no compression; it is an array of
    floats, whose values are those of the receiver when that was in the
    frame already, and else their quotients (products) by the a-factor. *)
Theorem copies_are_in_the_frame_asked_for (s : store) (self : ref)
    (o : cosmo_array.t)
    (Hself : s !! self = Some o) :
  (forall r s',
      to_comoving self s = (Return r, s') ->
      exists o',
        r = length s /\ s' = s ++ [o'] /\ comoving o' = true /\
        units o' = units o /\ cosmo_factor o' = cosmo_factor o /\
        compression o' = None /\
        (comoving o = true -> d o' = np.astype np.float64 (d o)) /\
        (comoving o = false ->
         exists a_factor, a_factor_of (cosmo_factor o) = Return a_factor /\
                          d o' = floats (map (fun x => x / a_factor) (np.items (d o))))) /\
  (forall r s',
      to_physical self s = (Return r, s') ->
      exists o',
        r = length s /\ s' = s ++ [o'] /\ comoving o' = false /\
        units o' = units o /\ cosmo_factor o' = cosmo_factor o /\
        compression o' = None /\
        (comoving o = false -> d o' = np.astype np.float64 (d o)) /\
        (comoving o = true ->
         exists a_factor, a_factor_of (cosmo_factor o) = Return a_factor /\
                          d o' = floats (map (fun x => x * a_factor) (np.items (d o))))).
Proof.
  split; intros r s' Hrun; destruct (comoving o) eqn:Hc.
  - rewrite (to_comoving_copy s self o Hself Hc) in Hrun. injection Hrun as <- <-.
    eexists. repeat split; try reflexivity. discriminate.
  - destruct (a_factor_of (cosmo_factor o)) as [a|e] eqn:Ha.
    + rewrite (to_comoving_run s self o a Hself Hc Ha) in Hrun.
      injection Hrun as <- <-.
      eexists. repeat split; try reflexivity; [discriminate|]. eauto.
    + rewrite (to_comoving_raise s self o e Hself Hc Ha) in Hrun. discriminate.
  - destruct (a_factor_of (cosmo_factor o)) as [a|e] eqn:Ha.
    + rewrite (to_physical_run s self o a Hself Hc Ha) in Hrun.
      injection Hrun as <- <-.
      eexists. repeat split; try reflexivity; [discriminate|]. eauto.
    + rewrite (to_physical_raise s self o e Hself Hc Ha) in Hrun. discriminate.
  - rewrite (to_physical_copy s self o Hself Hc) in Hrun. injection Hrun as <- <-.
    eexists. repeat split; try reflexivity. discriminate.
Qed.

(** The two compatibility tests write nothing.  An array is compatible
    with its own frame without its cosmo_factor being read; with an
    a-factor it is compatible with at least one frame, and with both
    exactly when the a-factor is one.  Without a cosmo_factor the test
    against the other frame raises AttributeError. *)
Theorem compatibility_spec (s : store) (self : ref) (o : cosmo_array.t)
    (Hself : s !! self = Some o) :
  (comoving o = true -> compatible_with_comoving self s = (Return true, s)) /\
  (comoving o = false -> compatible_with_physical self s = (Return true, s)) /\
  (forall a_factor,
      a_factor_of (cosmo_factor o) = Return a_factor ->
      exists with_comoving with_physical,
        compatible_with_comoving self s = (Return with_comoving, s) /\
        compatible_with_physical self s = (Return with_physical, s) /\
        with_comoving || with_physical = true /\
        (with_comoving && with_physical = true <-> a_factor == 1)) /\
  (forall e,
      a_factor_of (cosmo_factor o) = Raise e ->
      (comoving o = false -> compatible_with_comoving self s = (Raise e, s)) /\
      (comoving o = true -> compatible_with_physical self s = (Raise e, s))).
Proof.
  split; [|split; [|split]].
  - intros Hc. unfold compatible_with_comoving. run. rewrite Hc. reflexivity.
  - intros Hc. unfold compatible_with_physical. run. rewrite Hc. reflexivity.
  - intros a Ha. unfold compatible_with_comoving, compatible_with_physical.
    run.
    destruct (comoving o) eqn:Hc; cbn [negb]; run; rewrite Ha; run;
      eexists _, _; (split; [reflexivity|]); (split; [reflexivity|]);
      cbn [orb andb]; rewrite ?orb_true_r; (split; [reflexivity|]);
      rewrite ?andb_true_r; apply Qeq_bool_iff.
  - intros e Ha. unfold compatible_with_comoving, compatible_with_physical.
    split; intros Hc; run; rewrite Hc; cbn [negb]; run;
      rewrite (bind_raise (lift _) _ s e s) by (unfold lift; rewrite Ha; reflexivity);
      reflexivity.
Qed.

End MoreConversions.

(** ** More on the dispatch of ufuncs *)

Lemma for_each_getattr_default {A : Type} (attr : cosmo_array.t -> A) (default : A)
    (inputs : list value) (s : store) xs s' :
  for_each (getattr_default attr default) inputs s = (Return xs, s') ->
  s' = s /\
  Forall2 (fun v x =>
             match v with
             | array r => exists o, s !! r = Some o /\ x = attr o
             | foreign _ => x = default
             end) inputs xs.
Proof.
  revert xs s'. induction inputs as [|v inputs IH]; simpl; intros xs s' H.
  - injection H as <- <-. split; [reflexivity|constructor].
  - apply bind_returns in H as (x & s1 & Hx & H).
    apply bind_returns in H as (xs' & s2 & Hxs & H).
    injection H as <- <-.
    assert (Hv : s1 = s /\ match v with
                           | array r => exists o, s !! r = Some o /\ x = attr o
                           | foreign _ => x = default
                           end).
    { destruct v as [r|y]; simpl in Hx.
      - apply getattr_returns in Hx as (-> & o & Ho & ->). eauto.
      - injection Hx as <- <-. auto. }
    destruct Hv as [-> Hv]. apply IH in Hxs as [-> Hall].
    split; [reflexivity|]. constructor; assumption.
Qed.

Lemma registry_multiply (ufunc : np.ufunc) :
  registry_getitem ufunc = Return _multiply_cosmo_factor ->
  ufunc = np.multiply \/ ufunc = np.matmul.
Proof. destruct ufunc; vm_compute; intros H; try discriminate H; auto. Qed.

Section MoreDispatch.

Context {U : Unyt}.
Import cosmo_array.

Lemma resolve_frames_returns cm inputs (s : store) resolved s' :
  resolve_frames cm inputs s = (Return resolved, s') ->
  resolved.2 = forallb id cm || existsb id cm.
Proof.
  unfold resolve_frames. destruct (forallb id cm); [intros [= <- _]; reflexivity|].
  destruct (existsb id cm); cbn [negb orb].
  - intros H. apply bind_returns in H as (inputs' & s1 & _ & H).
    injection H as <- _. reflexivity.
  - intros [= <- _]. reflexivity.
Qed.

(** What returns: a call of [__array_ufunc__] that returns was a call of
    [multiply] or [matmul] on exactly two cosmo_arrays that both have a
    cosmo_factor, at equal scale factors.  The array returned is a new
    object; its cosmo_factor is the product of the two, it is comoving
    unless both inputs are physical, and its compression is that of the
    inputs when they have the same and [None] otherwise. *)
Theorem only_products_return (self : ref) (ufunc : np.ufunc) (method : string)
    (inputs : list value) (s : store) (r : ref) (s' : store)
    (Hrun : __array_ufunc__ self ufunc method inputs s = (Return r, s')) :
  (ufunc = np.multiply \/ ufunc = np.matmul) /\
  exists r1 r2 o1 o2 c1 c2 o',
    inputs = [array r1; array r2] /\
    s !! r1 = Some o1 /\ s !! r2 = Some o2 /\
    cosmo_factor o1 = Some c1 /\ cosmo_factor o2 = Some c2 /\
    Qeq_bool (cosmo_factor.scale_factor c1) (cosmo_factor.scale_factor c2) = true /\
    (length s <= r)%nat /\
    s' !! r = Some o' /\
    cosmo_factor o' =
      Some (cosmo_factor.new
              (Sympy.mul (cosmo_factor.expr c1) (cosmo_factor.expr c2))
              (cosmo_factor.scale_factor c1)) /\
    comoving o' = comoving o1 || comoving o2 /\
    compression o' =
      (if bool_decide (compression o2 = compression o1) then compression o1 else None).
Proof.
  assert (Hnew : (length s <= r)%nat).
  { destruct (keeps_array_ufunc s self ufunc method inputs s) as [_ Hpost];
      [reflexivity|]. apply Hpost. rewrite Hrun. reflexivity. }
  unfold __array_ufunc__ in Hrun.
  apply bind_returns in Hrun as (cm & s1 & Hcm & H).
  apply bind_returns in H as (cf & s2 & Hcf & H).
  apply bind_returns in H as (comp & s3 & Hcomp & H).
  apply bind_returns in H as (resolved & s4 & Hres & H).
  cbv zeta in H.
  apply bind_returns in H as (operands & s5 & _ & H).
  apply bind_returns in H as (base & s6 & _ & H).
  apply bind_returns in H as (ret_arr & s7 & Halloc & H).
  apply bind_returns in H as (? & s8 & Hset1 & H).
  apply bind_returns in H as (f & s9 & Hf & H).
  apply bind_returns in H as (c & s10 & Hc & H).
  apply bind_returns in H as (? & s11 & Hset2 & H).
  apply bind_returns in H as (? & s12 & Hset3 & H).
  injection H as -> ->.
  apply for_each_getattr_default in Hcm as [-> Hcm].
  apply for_each_getattr_default in Hcf as [-> Hcf].
  apply for_each_getattr_default in Hcomp as [-> Hcomp].
  apply resolve_frames_returns in Hres.
  unfold alloc in Halloc. injection Halloc as <- <-.
  unfold lift in Hf, Hc. injection Hf as Hf <-. injection Hc as Hc <-.
  apply call_returns in Hc as (-> & c1 & c2 & -> & Hs & ->).
  split; [apply registry_multiply, Hf|].
  apply Forall2_cons_inv_r in Hcf as (v1 & l1 & Hv1 & Hcf & ->).
  apply Forall2_cons_inv_r in Hcf as (v2 & l2 & Hv2 & Hcf & ->).
  apply Forall2_nil_inv_r in Hcf as ->.
  destruct v1 as [r1|]; [|discriminate]. destruct Hv1 as (o1 & Ho1 & Hc1).
  destruct v2 as [r2|]; [|discriminate]. destruct Hv2 as (o2 & Ho2 & Hc2).
  apply Forall2_cons_inv_l in Hcm as (m1 & k1 & (o1' & Ho1' & ->) & Hcm & ->).
  apply Forall2_cons_inv_l in Hcm as (m2 & k2 & (o2' & Ho2' & ->) & Hcm & ->).
  apply Forall2_nil_inv_l in Hcm as ->.
  apply Forall2_cons_inv_l in Hcomp as (p1 & q1 & (o1'' & Ho1'' & ->) & Hcomp & ->).
  apply Forall2_cons_inv_l in Hcomp as (p2 & q2 & (o2'' & Ho2'' & ->) & Hcomp & ->).
  apply Forall2_nil_inv_l in Hcomp as ->.
  rewrite Ho1 in Ho1', Ho1''. injection Ho1' as <-. injection Ho1'' as <-.
  rewrite Ho2 in Ho2', Ho2''. injection Ho2' as <-. injection Ho2'' as <-.
  apply setattr_returns in Hset1 as (a1 & Ha1 & ->).
  rewrite lookup_last in Ha1. injection Ha1 as <-. rewrite insert_last in *.
  apply setattr_returns in Hset2 as (a2 & Ha2 & ->).
  rewrite lookup_last in Ha2. injection Ha2 as <-. rewrite insert_last in *.
  apply setattr_returns in Hset3 as (a3 & Ha3 & ->).
  rewrite lookup_last in Ha3. injection Ha3 as <-. rewrite insert_last.
  exists r1, r2, o1, o2, c1, c2. eexists.
  split; [reflexivity|]. split; [exact Ho1|]. split; [exact Ho2|].
  split; [symmetry; exact Hc1|]. split; [symmetry; exact Hc2|].
  split; [exact Hs|]. split; [exact Hnew|]. split; [apply lookup_last|].
  cbn [cosmo_factor comoving compression set_compression set_cosmo_factor set_comoving].
  split; [reflexivity|]. split.
  - rewrite Hres. cbn [forallb existsb id].
    destruct (comoving o1), (comoving o2); reflexivity.
  - unfold one_distinct. cbn [forallb hd]. rewrite andb_true_r. reflexivity.
Qed.

(** Two cosmo_arrays in one frame. *)
Lemma array_ufunc_same_frame self ufunc method (s : store) r1 r2 o1 o2 base :
  s !! r1 = Some o1 -> s !! r2 = Some o2 -> comoving o1 = comoving o2 ->
  unyt_array_ufunc ufunc method
    [quantity (d o1) (units o1); quantity (d o2) (units o2)] = Return base ->
  __array_ufunc__ self ufunc method [array r1; array r2] s =
  match registry_getitem ufunc with
  | Raise e => (Raise e, s ++ [mk base.1 base.2 None (comoving o1) None])
  | Return f =>
      match call f [cosmo_factor o1; cosmo_factor o2] with
      | Raise e => (Raise e, s ++ [mk base.1 base.2 None (comoving o1) None])
      | Return c =>
          (Return (length s),
           s ++ [mk base.1 base.2 c (comoving o1)
                   (if bool_decide (compression o2 = compression o1)
                    then compression o1 else None)])
      end
  end.
Proof.
  intros H1 H2 Hc Hb. unfold __array_ufunc__. cbn [for_each getattr_default].
  run.
  unfold resolve_frames. cbn [forallb existsb id]. rewrite <- Hc.
  assert (Hframe :
    (if comoving o1 && (comoving o1 && true)
     then pure ([array r1; array r2], true)
     else if negb (comoving o1 || (comoving o1 || false))
          then pure ([array r1; array r2], false)
          else inputs' <- for_each comoving_input [array r1; array r2] ;;
               pure (inputs', true)) =
    pure ([array r1; array r2], comoving o1)) by (destruct (comoving o1); reflexivity).
  rewrite Hframe. run. cbn [fst snd for_each as_operand]. run.
  rewrite Hb. run.
  unfold set_comoving; cbn [d units cosmo_factor comoving compression].
  unfold one_distinct. cbn [forallb hd]. rewrite andb_true_r.
  (destruct (registry_getitem ufunc) as [f|e]; [|reflexivity]); run.
  unfold cf_value in *.
  (destruct (call f _) as [c|e]; [|reflexivity]); run.
  reflexivity.
Qed.

(** A comoving and a physical cosmo_array, in this order. *)
Lemma array_ufunc_mixed_frames self ufunc method (s : store) r1 r2 o1 o2 a_factor
    base :
  s !! r1 = Some o1 -> s !! r2 = Some o2 ->
  comoving o1 = true -> comoving o2 = false ->
  a_factor_of (cosmo_factor o2) = Return a_factor ->
  unyt_array_ufunc ufunc method
    [quantity (d o1) (units o1);
     quantity (floats (map (fun x => x / a_factor) (np.items (d o2)))) (units o2)] = Return base ->
  let converted :=
    mk (floats (map (fun x => x / a_factor) (np.items (d o2)))) (units o2)
      (cosmo_factor o2) true None in
  __array_ufunc__ self ufunc method [array r1; array r2] s =
  match registry_getitem ufunc with
  | Raise e => (Raise e, s ++ [converted; mk base.1 base.2 None true None])
  | Return f =>
      match call f [cosmo_factor o1; cosmo_factor o2] with
      | Raise e => (Raise e, s ++ [converted; mk base.1 base.2 None true None])
      | Return c =>
          (Return (S (length s)),
           s ++ [converted;
                 mk base.1 base.2 c true
                   (if bool_decide (compression o2 = compression o1)
                    then compression o1 else None)])
      end
  end.
Proof.
  intros H1 H2 Hc1 Hc2 Ha Hb converted.
  unfold __array_ufunc__. cbn [for_each getattr_default].
  run.
  unfold resolve_frames. rewrite Hc1, Hc2. cbn [forallb existsb id andb orb negb].
  cbn [for_each comoving_input]. run. rewrite Hc1. cbn [negb]. run.
  rewrite Hc2. cbn [negb]. rewrite ?bind_assoc_run.
  rewrite (bind_run _ _ _ _ _ (to_comoving_run s r2 o2 a_factor H2 Hc2 Ha)). run.
  fold converted. cbn [fst snd for_each as_operand]. rewrite ?bind_assoc_run.
  rewrite (bind_run _ _ _ _ _ (load_run _ r1 o1 (lookup_old s converted r1 o1 H1))).
  run.
  rewrite (bind_run _ _ _ _ _ (load_run _ _ _ (lookup_last s converted))). run.
  cbn [d units converted]. rewrite Hb. run.
  rewrite length_app. cbn [length]. rewrite Nat.add_1_r.
  unfold one_distinct. cbn [forallb hd]. rewrite andb_true_r.
  assert (Hlast : forall o' : cosmo_array.t,
             (s ++ [converted]) ++ [o'] = s ++ [converted; o'])
    by (intros; rewrite <- app_assoc; reflexivity).
  assert (Hlen : length (s ++ [converted]) = S (length s))
    by (rewrite length_app; cbn [length]; lia).
  assert (Hset : forall assign (o' : cosmo_array.t),
             setattr (S (length s)) assign ((s ++ [converted]) ++ [o']) =
             (Return tt, (s ++ [converted]) ++ [assign o'])).
  { intros. rewrite <- Hlen. apply setattr_last. }
  unfold set_comoving; cbn [d units cosmo_factor comoving compression].
  (destruct (registry_getitem ufunc) as [f|e]; [|rewrite Hlast; reflexivity]); run.
  unfold cf_value in *.
  (destruct (call f _) as [c|e]; [|rewrite Hlast; reflexivity]); run.
  rewrite (bind_run _ _ _ _ _ (Hset _ _)).
  rewrite (bind_run _ _ _ _ _ (Hset _ _)).
  rewrite Hlast. reflexivity.
Qed.

End MoreDispatch.

Section Products.

Context {U : Unyt}.
Import cosmo_array.

(** The product of two cosmo_arrays in one frame: when both have a
    cosmo_factor and the base class has computed the product, [multiply]
    and [matmul] return a new array in the frame of the inputs, with the
    base class' data and units, the product of the two cosmo_factors and
    the compression the inputs have in common (else [None]), provided the
    two scale factors are equal; when they differ the call raises
    InvalidScaleFactor with the two scale factors. *)
Theorem product_in_one_frame (ufunc : np.ufunc) (self : ref) (method : string)
    (s : store) (r1 r2 : ref) (o1 o2 : cosmo_array.t) (c1 c2 : cosmo_factor.t)
    (base : np.ndarray * string)
    (Hufunc : ufunc = np.multiply \/ ufunc = np.matmul)
    (H1 : s !! r1 = Some o1) (H2 : s !! r2 = Some o2)
    (Hframe : comoving o1 = comoving o2)
    (Hc1 : cosmo_factor o1 = Some c1) (Hc2 : cosmo_factor o2 = Some c2)
    (Hbase : unyt_array_ufunc ufunc method
               [quantity (d o1) (units o1); quantity (d o2) (units o2)] = Return base) :
  (Qeq_bool (cosmo_factor.scale_factor c1) (cosmo_factor.scale_factor c2) = true ->
   __array_ufunc__ self ufunc method [array r1; array r2] s =
   (Return (length s),
    s ++ [mk base.1 base.2
            (Some (cosmo_factor.new
                     (Sympy.mul (cosmo_factor.expr c1) (cosmo_factor.expr c2))
                     (cosmo_factor.scale_factor c1)))
            (comoving o1)
            (if bool_decide (compression o2 = compression o1)
             then compression o1 else None)])) /\
  (Qeq_bool (cosmo_factor.scale_factor c1) (cosmo_factor.scale_factor c2) = false ->
   __array_ufunc__ self ufunc method [array r1; array r2] s =
   (Raise (InvalidScaleFactor
             (different_scale_factors "multiply" (cosmo_factor.scale_factor c1)
                (cosmo_factor.scale_factor c2))),
    s ++ [mk base.1 base.2 None (comoving o1) None])).
Proof.
  rewrite (array_ufunc_same_frame self ufunc method s r1 r2 o1 o2 base H1 H2 Hframe
             Hbase).
  assert (Hf : registry_getitem ufunc = Return _multiply_cosmo_factor)
    by (destruct Hufunc as [-> | ->]; reflexivity).
  rewrite Hf, Hc1, Hc2. cbn [call cosmo_factor.py_mul cosmo_factor.__mul__].
  split; intros ->; reflexivity.
Qed.

(** The product of a comoving and a physical cosmo_array: [to_comoving]
    of the physical one is appended to the store, with values divided by
    the a-factor of that array's own cosmo_factor, the base class computes
    on the comoving values, and at equal scale factors the call returns a
    new comoving array with the product of the two cosmo_factors.  The two
    inputs stay in the store as they were. *)
Theorem product_in_mixed_frames (ufunc : np.ufunc) (self : ref) (method : string)
    (s : store) (r1 r2 : ref) (o1 o2 : cosmo_array.t) (c1 c2 : cosmo_factor.t)
    (a_factor : Q) (base : np.ndarray * string)
    (Hufunc : ufunc = np.multiply \/ ufunc = np.matmul)
    (H1 : s !! r1 = Some o1) (H2 : s !! r2 = Some o2)
    (Hcomoving : comoving o1 = true) (Hphysical : comoving o2 = false)
    (Hc1 : cosmo_factor o1 = Some c1) (Hc2 : cosmo_factor o2 = Some c2)
    (Ha : cosmo_factor.a_factor c2 = Return a_factor)
    (Hscale : Qeq_bool (cosmo_factor.scale_factor c1)
                (cosmo_factor.scale_factor c2) = true)
    (Hbase : unyt_array_ufunc ufunc method
               [quantity (d o1) (units o1);
                quantity (floats (map (fun x => x / a_factor) (np.items (d o2)))) (units o2)]
             = Return base) :
  __array_ufunc__ self ufunc method [array r1; array r2] s =
  (Return (S (length s)),
   s ++ [mk (floats (map (fun x => x / a_factor) (np.items (d o2)))) (units o2)
           (cosmo_factor o2) true None;
         mk base.1 base.2
           (Some (cosmo_factor.new
                    (Sympy.mul (cosmo_factor.expr c1) (cosmo_factor.expr c2))
                    (cosmo_factor.scale_factor c1)))
           true
           (if bool_decide (compression o2 = compression o1)
            then compression o1 else None)]).
Proof.
  assert (Ha' : a_factor_of (cosmo_factor o2) = Return a_factor)
    by (rewrite Hc2; exact Ha).
  rewrite (array_ufunc_mixed_frames self ufunc method s r1 r2 o1 o2 a_factor base
             H1 H2 Hcomoving Hphysical Ha' Hbase).
  assert (Hf : registry_getitem ufunc = Return _multiply_cosmo_factor)
    by (destruct Hufunc as [-> | ->]; reflexivity).
  rewrite Hf, Hc1, Hc2. cbn [call cosmo_factor.py_mul cosmo_factor.__mul__].
  rewrite Hscale. reflexivity.
Qed.


End Products.

(** ** Uses of the results above on the example arrays *)

Section MoreExamples.

Import cosmo_array.

Lemma product_quotient_round_trip_example :
  exists c,
    cosmo_factor.__mul__ a_half (Some (cosmo_factor.new 2%Z (1 # 2))) = Return c /\
    cosmo_factor.__truediv__ c (Some (cosmo_factor.new 2%Z (1 # 2))) = Return a_half.
Proof.
  apply (product_quotient_round_trip a_half (cosmo_factor.new 2%Z (1 # 2))).
  reflexivity.
Defined.

Lemma equal_is_not_addable_example :
  cosmo_factor.__eq__ (cosmo_factor.new 0%Z (1 # 2)) (cosmo_factor.new 0%Z 1) =
  Return true.
Proof. apply (equal_is_not_addable (1 # 2) 1). reflexivity. Defined.

Lemma convert_to_physical_of_x :
  exists s',
    convert_to_physical 0%nat [x_comoving] = (Return tt, s') /\
    s' !! 0%nat =
      Some (mk (floats [1 * (1 # 2); 2 * (1 # 2); 3 * (1 # 2)]) "kpc" (Some a_half)
              false None).
Proof.
  apply (proj1 (proj2 (convert_to_physical_spec [x_comoving] 0%nat x_comoving eq_refl))
           (1 # 2)); reflexivity.
Defined.

Lemma conversion_without_a_factor_example :
  convert_to_comoving 0%nat [mk (floats [1; 2; 3]) "kpc" None false None] =
  (Raise (AttributeError "NoneType" "a_factor"),
   [mk (floats [1; 2; 3]) "kpc" None false None]).
Proof.
  apply (proj1 (conversion_without_a_factor (U := example_unyt)
                  [mk (floats [1; 2; 3]) "kpc" None false None] 0%nat
                  (mk (floats [1; 2; 3]) "kpc" None false None)
                  (AttributeError "NoneType" "a_factor") eq_refl eq_refl) eq_refl).
Defined.

Lemma copies_are_in_the_frame_asked_for_example :
  exists o',
    1%nat = length [z_compressed] /\
    [z_compressed; mk (floats [1; 2; 3]) "kpc" (Some a_half) true None] =
      [z_compressed] ++ [o'] /\
    comoving o' = true.
Proof.
  destruct (proj1 (copies_are_in_the_frame_asked_for (U := example_unyt)
                     [z_compressed] 0%nat z_compressed eq_refl)
              1%nat [z_compressed; mk (floats [1; 2; 3]) "kpc" (Some a_half) true None]
              eq_refl)
    as (o' & Hr & Hs & Hc & _).
  exists o'. auto.
Defined.

Lemma compatibility_of_y :
  compatible_with_physical 0%nat [y_physical] = (Return true, [y_physical]).
Proof.
  apply (proj1 (proj2 (compatibility_spec [y_physical] 0%nat y_physical eq_refl))).
  reflexivity.
Defined.

Lemma accessor_of_z :
  accessor (np.take [2; 1; 0]%nat) 0%nat [z_compressed] =
  (Return (array 1%nat),
   [z_compressed; mk (floats [3; 2; 1]) "kpc" (Some a_half) true (Some "gzip")]).
Proof.
  apply (accessor_run (np.take [2; 1; 0]%nat) [z_compressed] 0%nat z_compressed eq_refl).
Defined.

Lemma only_products_return_example :
  exists o',
    [x_comoving;
     mk (floats [1; 4; 9]) "kpc*kpc" (Some (cosmo_factor.new 2%Z (1 # 2))) true None]
      !! 1%nat = Some o' /\
    cosmo_factor o' = Some (cosmo_factor.new 2%Z (1 # 2)).
Proof.
  destruct (only_products_return (U := example_unyt) 0%nat np.multiply "__call__"
              [array 0%nat; array 0%nat] [x_comoving] 1%nat
              [x_comoving;
               mk (floats [1; 4; 9]) "kpc*kpc" (Some (cosmo_factor.new 2%Z (1 # 2)))
                 true None]
              eq_refl)
    as (_ & r1 & r2 & o1 & o2 & c1 & c2 & o' & Hin & H1 & H2 & Hc1 & Hc2 & _ & _ & Ho'
        & Hcf & _).
  exists o'. split; [exact Ho'|].
  injection Hin as <- <-. simpl in H1, H2. injection H1 as <-. injection H2 as <-.
  simpl in Hc1, Hc2. injection Hc1 as <-. injection Hc2 as <-. exact Hcf.
Defined.

Lemma product_in_one_frame_example :
  __array_ufunc__ (U := example_unyt) 0%nat np.multiply "__call__"
    [array 0%nat; array 0%nat] [x_comoving] =
  (Return 1%nat,
   [x_comoving; mk (floats [1; 4; 9]) "kpc*kpc" (Some (cosmo_factor.new 2%Z (1 # 2))) true None]).
Proof.
  apply (proj1 (product_in_one_frame (U := example_unyt) np.multiply 0%nat "__call__"
                  [x_comoving] 0%nat 0%nat x_comoving x_comoving a_half a_half
                  (floats [1; 4; 9], "kpc*kpc") (or_introl eq_refl) eq_refl eq_refl eq_refl
                  eq_refl eq_refl eq_refl)).
  reflexivity.
Defined.

Lemma product_in_mixed_frames_example :
  __array_ufunc__ (U := example_unyt) 0%nat np.multiply "__call__"
    [array 0%nat; array 1%nat] [x_comoving; y_physical] =
  (Return 3%nat,
   [x_comoving; y_physical;
    mk (floats [2 # 2; 2; 6 # 2]) "kpc" (Some a_half) true None;
    mk (floats [2 # 2; 4; 18 # 2]) "kpc*kpc" (Some (cosmo_factor.new 2%Z (1 # 2))) true None]).
Proof.
  apply (product_in_mixed_frames (U := example_unyt) np.multiply 0%nat "__call__"
           [x_comoving; y_physical] 0%nat 1%nat x_comoving y_physical a_half a_half
           (1 # 2) (floats [2 # 2; 4; 18 # 2], "kpc*kpc") (or_introl eq_refl)
           eq_refl eq_refl eq_refl eq_refl eq_refl eq_refl eq_refl eq_refl eq_refl).
Defined.


End MoreExamples.

(** * Results on the writer *)

Section WriterResults.

Import writer.
Context {UL : writer.Units} {M : @writer.Metadata UL}.

(** ** The generated properties *)

Lemma fold_set_field_fields (names : list string) (self : dataset) (name : string) :
  fields (fold_left (fun ds n => set_field n None ds) names self) !! name =
  if bool_decide (name ∈ names) then Some None else fields self !! name.
Proof.
  revert self. induction names as [|n names IH]; intros self; simpl.
  - reflexivity.
  - rewrite IH. cbn [set_field fields].
    destruct (decide (name ∈ names)) as [Hin|Hnin].
    + rewrite bool_decide_eq_true_2 by exact Hin.
      rewrite bool_decide_eq_true_2 by (apply elem_of_cons; right; exact Hin).
      reflexivity.
    + rewrite (bool_decide_eq_false_2 _ Hnin).
      destruct (decide (name = n)) as [->|Hne].
      * rewrite lookup_insert_eq.
        rewrite bool_decide_eq_true_2 by (apply elem_of_cons; left; reflexivity).
        reflexivity.
      * rewrite lookup_insert_ne by congruence.
        rewrite bool_decide_eq_false_2; [reflexivity|].
        intros Hin. apply elem_of_cons in Hin as [?|?]; contradiction.
Qed.

Lemma fold_set_field_rest (names : list string) (self : dataset) :
  let ds := fold_left (fun ds n => set_field n None ds) names self in
  particle_name ds = particle_name self /\
  particle_handle ds = particle_handle self /\
  n_part ds = n_part self /\
  requires_particle_ids_before_write ds = requires_particle_ids_before_write self.
Proof.
  revert self. induction names as [|n names IH]; intros self; simpl.
  - auto.
  - destruct (IH (set_field n None self)) as (H1 & H2 & H3 & H4).
    cbn [set_field particle_name particle_handle n_part
         requires_particle_ids_before_write] in *. auto.
Qed.

Lemma all_unset_true (self : dataset) (names : list string) :
  (forall name, name ∈ names -> fields self !! name = Some None) ->
  all_unset self names = Ok true.
Proof.
  induction names as [|n names IH]; intros H; simpl.
  - reflexivity.
  - unfold getattr_field.
    rewrite (H n) by (apply elem_of_cons; left; reflexivity).
    apply IH. intros name Hin. apply H, elem_of_cons. right. exact Hin.
Qed.

Lemma all_unset_true_inv (self : dataset) (names : list string) :
  all_unset self names = Ok true ->
  forall name, name ∈ names -> fields self !! name = Some None.
Proof.
  induction names as [|n names IH]; simpl; intros H name Hin.
  - apply elem_of_nil in Hin. contradiction.
  - unfold getattr_field in H.
    destruct (fields self !! n) as [[r|]|] eqn:Hn; try discriminate.
    apply elem_of_cons in Hin as [->|Hin]; [exact Hn|]. apply IH; assumption.
Qed.

(** A dataset as [__init__] leaves it is empty: every required field is
    there and is [None], [check_empty] is true, and [check_consistent] has
    set nothing yet. *)
Theorem new_dataset_is_empty (unit_system : unit_system UnitSystem)
    (particle_type : nat) (self : dataset)
    (Hinit : __init__ unit_system particle_type = Ok self) :
  exists names,
    required_names self = Ok names /\
    (forall name, name ∈ names -> getter name self = Ok None) /\
    check_empty self = Ok true /\
    n_part self = None /\
    requires_particle_ids_before_write self = None /\
    particle_handle self = "PartType" +:+ pretty particle_type.
Proof.
  unfold __init__ in Hinit.
  destruct (getitem particle_name_underscores particle_type) as [pname|];
    [|discriminate].
  unfold generate_empty_properties, required_names in Hinit.
  cbn [writer.particle_name] in Hinit.
  destruct (required_fields pname) as [names|] eqn:Hreq; [|discriminate].
  injection Hinit as <-.
  set (blank := mk_dataset unit_system particle_type _ pname ∅ None None).
  destruct (fold_set_field_rest names blank) as (Hn & Hh & Hp & Hq).
  assert (Hnames : required_names (fold_left (fun ds n => set_field n None ds) names blank)
                   = Ok names).
  { unfold required_names. rewrite Hn. cbn [blank writer.particle_name].
    rewrite Hreq. reflexivity. }
  assert (Hall : forall name, name ∈ names ->
            fields (fold_left (fun ds n => set_field n None ds) names blank) !! name
            = Some None).
  { intros name Hin. rewrite fold_set_field_fields.
    rewrite bool_decide_eq_true_2 by exact Hin. reflexivity. }
  exists names. split; [exact Hnames|]. split.
  - intros name Hin. unfold getter, getattr_field. rewrite (Hall name Hin). reflexivity.
  - split; [unfold check_empty; rewrite Hnames; apply all_unset_true, Hall|].
    split; [exact Hp|]. split; [exact Hq|exact Hh].
Qed.


(** When a setter does not set: a setter made for a field whose
    dimensions are the integer [1] returns without looking at the value and
    without setting anything; a setter made for real dimensions raises
    TypeError on a value that is no unyt array and
    InvalidUnitEquivalence on an array of other dimensions.  In all these
    cases the dataset and the arrays are as they were. *)
Theorem setter_that_does_not_set (name : string)
    (unit_system : unit_system UnitSystem) (self : dataset) (value : pyvalue)
    (arrays : list quantity) :
  setter name int_one unit_system self value arrays = (Ok tt, (arrays, self)) /\
  (forall dimensions e,
      (setter name (dims dimensions) unit_system self value arrays).1 = Err e ->
      (setter name (dims dimensions) unit_system self value arrays).2 = (arrays, self)) /\
  (forall dimensions,
      (forall r, value <> py_unyt_array r) ->
      (setter name (dims dimensions) unit_system self value arrays).1 =
      Err (TypeError "You must provide quantities as unyt arrays.")) /\
  (forall dimensions r q,
      value = py_unyt_array r -> arrays !! r = Some q ->
      dimension_eqb (units_dimensions (units q)) dimensions = false ->
      (setter name (dims dimensions) unit_system self value arrays).1 =
      Err (InvalidUnitEquivalence ("Convert to " +:+ name))).
Proof.
  split; [reflexivity|]. split; [|split].
  - intros dimensions e. unfold setter.
    destruct value as [|r|]; try reflexivity.
    destruct (arrays !! r) as [q|]; [|reflexivity].
    destruct (dimension_eqb _ _); [discriminate|reflexivity].
  - intros dimensions Hv. unfold setter.
    destruct value as [|r|]; try reflexivity. exfalso. exact (Hv r eq_refl).
  - intros dimensions r q -> Hr Hd. unfold setter. rewrite Hr, Hd. reflexivity.
Qed.

(** ** check_consistent *)

Lemma shape0_returns (arrays : list quantity) (r n : nat) :
  shape0 arrays r = Ok n <->
  exists q, arrays !! r = Some q /\ hd_error (shape q) = Some n.
Proof.
  unfold shape0. destruct (arrays !! r) as [q|]; [|split; [discriminate|]].
  - destruct (shape q) as [|m l] eqn:Hs; simpl; split.
    + discriminate.
    + intros (q' & [= <-] & Hh). rewrite Hs in Hh. discriminate.
    + intros [= <-]. exists q. rewrite Hs. auto.
    + intros (q' & [= <-] & Hh). rewrite Hs in Hh. simpl in Hh. congruence.
  - intros (q & Hq & _). discriminate.
Qed.

Lemma sizes_loop_all_set (arrays : list quantity) (names : list string)
    (self : dataset) (acc sizes : list nat) :
  Forall2 (sized arrays self) names sizes ->
  sizes_loop arrays names self acc = (Ok (acc ++ sizes), self).
Proof.
  intros H. revert acc. induction H as [|name n names sizes Hn _ IH]; intros acc; simpl.
  - rewrite app_nil_r. reflexivity.
  - destruct Hn as (r & q & Hf & Hq & Hh). unfold getattr_field. rewrite Hf.
    rewrite (proj2 (shape0_returns arrays r n)) by eauto.
    rewrite IH, <- app_assoc. reflexivity.
Qed.

Lemma set_requires_fields (b : bool) (self : dataset) :
  fields (set_requires b self) = fields self /\
  particle_name (set_requires b self) = particle_name self /\
  n_part (set_requires b self) = n_part self.
Proof. auto. Qed.

Lemma reduce_and_true (first : bool) (rest : list bool) :
  reduce_and first rest = true <-> first = true /\ Forall (fun b => b = true) rest.
Proof.
  unfold reduce_and. revert first. induction rest as [|b rest IH]; intros first; simpl.
  - split; [intros ->; auto|tauto].
  - rewrite IH. split.
    + intros [Hab Hall]. apply andb_true_iff in Hab as [-> ->]. auto.
    + intros [-> Hall]. apply Forall_cons in Hall as [-> Hall]. auto.
Qed.

(** What the loop went through when it returned. *)
Lemma sizes_loop_returns (arrays : list quantity) (names : list string)
    (self : dataset) (acc sizes : list nat) (self' : dataset) :
  sizes_loop arrays names self acc = (Ok sizes, self') ->
  fields self' = fields self /\
  particle_name self' = particle_name self /\
  n_part self' = n_part self /\
  (exists found,
      sizes = acc ++ found /\
      Forall (fun n => exists name, name ∈ names /\ sized arrays self name n) found) /\
  (forall name, name ∈ names ->
     (exists n, n ∈ sizes /\ sized arrays self name n) \/
     (name = "particle_ids" /\ fields self !! name = Some None)) /\
  (requires_particle_ids_before_write self' =
     if bool_decide ("particle_ids" ∈ names /\ fields self !! "particle_ids" = Some None)
     then Some true else requires_particle_ids_before_write self).
Proof.
  revert self acc. induction names as [|name names IH]; intros self acc;
    cbn [sizes_loop].
  - intros [= <- <-].
    split; [reflexivity|]. split; [reflexivity|]. split; [reflexivity|].
    split; [|split].
    + exists []. rewrite app_nil_r. auto.
    + intros name Hin. apply elem_of_nil in Hin. contradiction.
    + rewrite bool_decide_eq_false_2; [reflexivity|].
      intros [Hin _]. apply elem_of_nil in Hin. contradiction.
  - unfold getattr_field.
    destruct (fields self !! name) as [[r|]|] eqn:Hf; [| |discriminate].
    + destruct (shape0 arrays r) as [n|e] eqn:Hs; [|discriminate].
      intros Hrun. apply IH in Hrun as (H1 & H2 & H3 & (found & -> & Hfound) & Hall & Hflag).
      apply shape0_returns in Hs as (q & Hq & Hh).
      assert (Hsized : sized arrays self name n) by (exists r, q; auto).
      split; [exact H1|]. split; [exact H2|]. split; [exact H3|]. split; [|split].
      * exists (n :: found). rewrite <- app_assoc. split; [reflexivity|].
        constructor.
        -- exists name. split; [apply elem_of_cons; auto|exact Hsized].
        -- eapply Forall_impl; [exact Hfound|].
           intros m (nm & Hin & Hm). exists nm. split; [apply elem_of_cons; auto|exact Hm].
      * intros nm Hin. apply elem_of_cons in Hin as [->|Hin].
        -- left. exists n. split; [|exact Hsized].
           rewrite <- app_assoc. apply elem_of_app. right. apply elem_of_cons. auto.
        -- apply Hall, Hin.
      * rewrite Hflag. apply f_equal with (f := fun P : bool => if P then _ else _).
        apply bool_decide_ext. split.
        -- intros [Hin Hn]. split; [apply elem_of_cons; auto|exact Hn].
        -- intros [Hin Hn]. split; [|exact Hn].
           apply elem_of_cons in Hin as [E|Hin]; [|exact Hin].
           rewrite <- E in Hf. congruence.
    + destruct (String.eqb_spec name "particle_ids") as [->|Hne]; [|discriminate].
      intros Hrun. apply IH in Hrun as (H1 & H2 & H3 & (found & -> & Hfound) & Hall & Hflag).
      cbn [set_requires fields writer.particle_name n_part
           requires_particle_ids_before_write] in *.
      split; [exact H1|]. split; [exact H2|]. split; [exact H3|]. split; [|split].
      * exists found. split; [reflexivity|].
        eapply Forall_impl; [exact Hfound|].
        intros m (nm & Hin & Hm). exists nm. split; [apply elem_of_cons; auto|exact Hm].
      * intros nm Hin. apply elem_of_cons in Hin as [->|Hin]; [right; auto|].
        apply Hall, Hin.
      * rewrite Hflag.
        rewrite (bool_decide_eq_true_2
                   ("particle_ids" ∈ "particle_ids" :: names /\ _))
          by (split; [apply elem_of_cons; auto|exact Hf]).
        destruct (bool_decide _); reflexivity.
Qed.

(** What [check_consistent] guarantees when it returns: it returns
    [True]; every required field but [particle_ids] is set; all the
    fields that are set, [particle_ids] too, hold arrays whose first axis
    has one and the same length, and [n_part] is that length;
    [requires_particle_ids_before_write] says whether [particle_ids] is
    [None]; the fields themselves are not touched. *)
Theorem check_consistent_returns (arrays : list quantity) (self self' : dataset)
    (result : bool)
    (Hrun : check_consistent arrays self = (Ok result, self')) :
  result = true /\
  fields self' = fields self /\
  exists names n,
    required_names self = Ok names /\
    n_part self' = Some n /\
    (forall name, name ∈ names ->
       sized arrays self name n \/
       (name = "particle_ids" /\ fields self !! name = Some None)) /\
    (exists name, name ∈ names /\ sized arrays self name n) /\
    requires_particle_ids_before_write self' =
      Some (bool_decide ("particle_ids" ∈ names /\
                         fields self !! "particle_ids" = Some None)).
Proof.
  unfold check_consistent in Hrun. cbv zeta in Hrun.
  assert (Hreq : required_names (set_requires false self) = required_names self)
    by reflexivity.
  rewrite Hreq in Hrun.
  destruct (required_names self) as [names|e] eqn:Hnames; [|discriminate].
  destruct (sizes_loop arrays names (set_requires false self) [])
    as [[sizes|e] looped] eqn:Hloop; [|discriminate].
  destruct sizes as [|first rest]; [discriminate|].
  destruct (reduce_and _ _) eqn:Hred; [|discriminate].
  injection Hrun as <- <-.
  apply sizes_loop_returns in Hloop
    as (H1 & H2 & H3 & (found & Hfound & Hsized) & Hall & Hflag).
  cbn [set_requires fields requires_particle_ids_before_write] in *.
  simpl in Hfound. subst found.
  apply reduce_and_true in Hred as [_ Hrest].
  assert (Hsame : forall m, m ∈ first :: rest -> m = first).
  { intros m Hin. apply elem_of_cons in Hin as [->|Hin]; [reflexivity|].
    rewrite Forall_forall in Hrest.
    specialize (Hrest ((first =? m)%nat)).
    symmetry. apply Nat.eqb_eq, Hrest, list_elem_of_fmap. eauto. }
  cbn [set_n_part requires_particle_ids_before_write n_part fields].
  split; [reflexivity|]. split; [exact H1|].
  exists names, first. split; [reflexivity|]. split; [reflexivity|]. split; [|split].
  - intros name Hin. destruct (Hall name Hin) as [(m & Hm & Hs)|Hid]; [|auto].
    left. rewrite <- (Hsame m Hm). exact Hs.
  - apply Forall_cons in Hsized as [(name & Hin & Hs) _]. eauto.
  - rewrite Hflag. destruct (bool_decide _); reflexivity.
Qed.

(** On a dataset whose required fields are all set: [check_consistent]
    returns [True] and records the common length when the first axes are
    all as long as the first one, and raises AssertionError, leaving
    [n_part] as it was, when one is not.  With no required field at all
    it raises TypeError. *)
Theorem check_consistent_all_set (arrays : list quantity) (self : dataset)
    (names : list string) (sizes : list nat)
    (Hnames : required_names self = Ok names)
    (Hset : Forall2 (sized arrays self) names sizes) :
  match sizes with
  | [] =>
      check_consistent arrays self =
      (Err (TypeError "reduce() of empty sequence"), set_requires false self)
  | first :: rest =>
      (Forall (fun n => n = first) rest ->
       check_consistent arrays self =
       (Ok true, set_n_part first (set_requires false self))) /\
      (~ Forall (fun n => n = first) rest ->
       check_consistent arrays self =
       (Err (AssertionError (particle_name self)), set_requires false self))
  end.
Proof.
  unfold check_consistent. cbv zeta.
  assert (Hreq : required_names (set_requires false self) = Ok names) by exact Hnames.
  rewrite Hreq.
  assert (Hset' : Forall2 (sized arrays (set_requires false self)) names sizes)
    by exact Hset.
  rewrite (sizes_loop_all_set arrays names _ [] sizes Hset'). simpl.
  destruct sizes as [|first rest]; [reflexivity|].
  assert (Hiff : reduce_and (first =? first)%nat (map (fun x => (first =? x)%nat) rest)
                 = true <-> Forall (fun n => n = first) rest).
  { rewrite reduce_and_true, Nat.eqb_refl, Forall_fmap. split.
    - intros [_ H]. eapply Forall_impl; [exact H|].
      intros n Hn. simpl in Hn. symmetry. apply Nat.eqb_eq, Hn.
    - intros H. split; [reflexivity|]. eapply Forall_impl; [exact H|].
      intros n ->. simpl. apply Nat.eqb_refl. }
  destruct (reduce_and _ _); split; intros H; try reflexivity.
  - exfalso. apply H, Hiff. reflexivity.
  - apply Hiff in H. discriminate.
Qed.

(** ** write *)

Lemma check_consistent_true (arrays : list quantity) (self self' : dataset) result :
  check_consistent arrays self = (Ok result, self') -> result = true.
Proof.
  unfold check_consistent. cbv zeta.
  destruct (required_names _); [|discriminate].
  destruct (sizes_loop _ _ _ _) as [[[|first rest]|e] looped]; try discriminate.
  destruct (reduce_and _ _); [|discriminate]. intros [= <- _]. reflexivity.
Qed.

Lemma init_check_empty (unit_system : unit_system UnitSystem) (particle_type : nat)
    (self : dataset) :
  __init__ unit_system particle_type = Ok self -> check_empty self = Ok true.
Proof.
  unfold __init__.
  destruct (getitem particle_name_underscores particle_type) as [pname|];
    [|discriminate].
  unfold generate_empty_properties, required_names. cbn [writer.particle_name].
  destruct (required_fields pname) as [names|] eqn:Hreq; [|discriminate].
  intros [= <-]. unfold check_empty, required_names.
  destruct (fold_set_field_rest names
              (mk_dataset unit_system particle_type
                 ("PartType" +:+ pretty particle_type) pname ∅ None None))
    as (-> & _). cbn [writer.particle_name]. rewrite Hreq.
  apply all_unset_true. intros name Hin. rewrite fold_set_field_fields.
  rewrite bool_decide_eq_true_2 by exact Hin. reflexivity.
Qed.

Lemma generate_dataset_empty (unit_system : unit_system UnitSystem) (number : nat)
    (g : generated) :
  generate_dataset unit_system number = Ok g -> check_empty (instance g) = Ok true.
Proof.
  unfold generate_dataset.
  destruct (getitem particle_name_underscores number); [|discriminate].
  destruct (getitem particle_name_class number); [|discriminate].
  destruct (required_fields _); [|discriminate].
  destruct (make_properties _ _); [|discriminate].
  destruct (__init__ unit_system number) as [ds|] eqn:Hinit; [|discriminate].
  intros [= <-]. exact (init_check_empty _ _ _ Hinit).
Qed.

Lemma create_particle_datasets_loop_empty (items : list (nat * string))
    (self self' : swift_writer) :
  (forall name g, datasets self !! name = Some g -> check_empty (instance g) = Ok true) ->
  create_particle_datasets_loop items self = Ok self' ->
  unit_system_of self' = unit_system_of self /\
  box_size self' = box_size self /\
  (forall name g, datasets self' !! name = Some g -> check_empty (instance g) = Ok true) /\
  (forall name, name ∈ map snd items -> is_Some (datasets self' !! name)) /\
  (forall name, is_Some (datasets self !! name) -> is_Some (datasets self' !! name)).
Proof.
  revert self. induction items as [|[number name] items IH]; intros self Hinv; simpl.
  - intros [= <-]. repeat split; auto.
    intros name Hin. apply elem_of_nil in Hin. contradiction.
  - destruct (generate_dataset (unit_system_of self) number) as [g|] eqn:Hg;
      [|discriminate].
    intros Hrun. apply IH in Hrun as (H1 & H2 & H3 & H4 & H5).
    + cbn [set_dataset unit_system_of box_size datasets] in *.
      split; [exact H1|]. split; [exact H2|]. split; [exact H3|]. split.
      * intros nm Hin. apply elem_of_cons in Hin as [->|Hin]; [|apply H4, Hin].
        apply H5. rewrite lookup_insert_eq. eauto.
      * intros nm Hsome. apply H5.
        destruct (decide (nm = name)) as [->|Hne];
          [rewrite lookup_insert_eq; eauto|rewrite lookup_insert_ne by congruence; exact Hsome].
    + intros nm g' Hl. cbn [set_dataset datasets] in Hl.
      destruct (decide (nm = name)) as [->|Hne].
      * rewrite lookup_insert_eq in Hl. injection Hl as <-.
        exact (generate_dataset_empty _ _ _ Hg).
      * rewrite lookup_insert_ne in Hl by congruence. eapply Hinv, Hl.
Qed.

Lemma new_writer_all_empty unit_system box compress (self : swift_writer) :
  new_writer unit_system box compress = Ok self ->
  unit_system_of self = unit_system /\ box_size self = box /\
  all_empty (map snd particle_name_underscores) self.
Proof.
  unfold new_writer, create_particle_datasets. intros Hrun.
  apply create_particle_datasets_loop_empty in Hrun as (H1 & H2 & H3 & H4 & _).
  - split; [exact H1|]. split; [exact H2|].
    intros name Hin. destruct (H4 name Hin) as [g Hg]. exists g. split; [exact Hg|].
    eapply H3, Hg.
  - intros name g Hl. cbn [datasets] in Hl. rewrite lookup_empty in Hl. discriminate.
Qed.

Lemma scan_all_empty (arrays : list quantity) (names : list string)
    (self : swift_writer) (names_to_write : list string) (generate_ids : bool) :
  all_empty names self ->
  scan arrays names self names_to_write generate_ids =
  (Ok (names_to_write, generate_ids), self).
Proof.
  induction names as [|name names IH]; intros Hall; simpl; [reflexivity|].
  destruct (Hall name) as (g & Hg & Hempty); [apply elem_of_cons; auto|].
  unfold getattr_dataset. rewrite Hg, Hempty. apply IH.
  intros nm Hin. apply Hall, elem_of_cons. auto.
Qed.

(** What the first loop of [write] went through when it returned. *)
Lemma scan_returns (arrays : list quantity) (names : list string)
    (self : swift_writer) (acc : list string) (generate_ids : bool)
    (names_to_write : list string) (flag : bool) (self' : swift_writer) :
  scan arrays names self acc generate_ids = (Ok (names_to_write, flag), self') ->
  (generate_ids = false -> flag = false) /\
  exists added,
    names_to_write = acc ++ added /\
    (added = [] -> self' = self /\ all_empty names self).
Proof.
  revert self acc generate_ids.
  induction names as [|name names IH]; intros self acc generate_ids; simpl.
  - intros [= <- <- <-]. split; [auto|]. exists []. rewrite app_nil_r.
    split; [reflexivity|]. intros _. split; [reflexivity|].
    intros nm Hin. apply elem_of_nil in Hin. contradiction.
  - unfold getattr_dataset.
    destruct (datasets self !! name) as [g|] eqn:Hg; [|discriminate].
    destruct (check_empty (instance g)) as [[|]|] eqn:Hempty; [| |discriminate].
    + intros Hrun. apply IH in Hrun as (Hflag & added & -> & Hadded).
      split; [exact Hflag|]. exists added. split; [reflexivity|].
      intros Hnil. destruct (Hadded Hnil) as [-> Hall]. split; [reflexivity|].
      intros nm Hin. apply elem_of_cons in Hin as [->|Hin]; [eauto|apply Hall, Hin].
    + destruct (check_consistent arrays (instance g)) as [[consistent|] checked]
        eqn:Hcheck; [|discriminate].
      rewrite (check_consistent_true _ _ _ _ Hcheck).
      intros Hrun. apply IH in Hrun as (Hflag & added & -> & _).
      split.
      * intros ->. apply Hflag. reflexivity.
      * exists (name :: added). rewrite <- app_assoc. split; [reflexivity|].
        discriminate.
Qed.

Lemma number_of_particles_loop_nothing (self : swift_writer)
    (items : list (nat * string)) (number_of_particles : list nat) :
  number_of_particles_loop self items [] number_of_particles = Ok number_of_particles.
Proof.
  induction items as [|[number name] items IH]; simpl; [reflexivity|exact IH].
Qed.

Lemma write_particle_groups_returns (self : swift_writer) (names : list string)
    (file : h5file) :
  write_particle_groups self names file = Ok tt -> names = [].
Proof.
  destruct names as [|name names]; [reflexivity|]. simpl.
  destruct (getattr_dataset self name); discriminate.
Qed.

Lemma all_unset_raise (self : dataset) (names : list string) e :
  all_unset self names = Err e -> exists what, e = AttributeError what.
Proof.
  induction names as [|n names IH]; simpl; [discriminate|].
  unfold getattr_field. destruct (fields self !! n) as [[r|]|].
  - discriminate.
  - exact IH.
  - intros [= <-]. eauto.
Qed.

Lemma sizes_loop_raise (arrays : list quantity) (names : list string)
    (self : dataset) (acc : list nat) e self' :
  sizes_loop arrays names self acc = (Err e, self') -> e <> NotImplementedError.
Proof.
  revert self acc. induction names as [|n names IH]; intros self acc; simpl;
    [discriminate|].
  unfold getattr_field. destruct (fields self !! n) as [[r|]|].
  - unfold shape0. destruct (arrays !! r) as [q|]; [|intros [= <- _]; discriminate].
    destruct (shape q); [intros [= <- _]; discriminate|apply IH].
  - destruct (String.eqb n "particle_ids"); [apply IH|intros [= <- _]; discriminate].
  - intros [= <- _]. discriminate.
Qed.

Lemma check_consistent_raise (arrays : list quantity) (self self' : dataset) e :
  check_consistent arrays self = (Err e, self') -> e <> NotImplementedError.
Proof.
  unfold check_consistent, required_names. cbv zeta.
  destruct (required_fields _); [|intros [= <- _]; discriminate].
  destruct (sizes_loop _ _ _ _) as [[[|first rest]|e'] looped] eqn:Hl.
  - intros [= <- _]. discriminate.
  - destruct (reduce_and _ _); [discriminate|intros [= <- _]; discriminate].
  - intros [= <- _]. eapply sizes_loop_raise, Hl.
Qed.

Lemma scan_raise (arrays : list quantity) (names : list string)
    (self : swift_writer) (acc : list string) (generate_ids : bool) e self' :
  scan arrays names self acc generate_ids = (Err e, self') ->
  e <> NotImplementedError.
Proof.
  revert self acc generate_ids.
  induction names as [|name names IH]; intros self acc generate_ids; simpl;
    [discriminate|].
  unfold getattr_dataset.
  destruct (datasets self !! name) as [g|]; [|intros [= <- _]; discriminate].
  destruct (check_empty (instance g)) as [[|]|e'] eqn:Hempty.
  - apply IH.
  - destruct (check_consistent arrays (instance g)) as [[c|e''] checked] eqn:Hc.
    + destruct c; apply IH.
    + intros [= <- _]. eapply check_consistent_raise, Hc.
  - intros [= <- _]. unfold check_empty, required_names in Hempty.
    destruct (required_fields _); [|injection Hempty as <-; discriminate].
    apply all_unset_raise in Hempty as [what ->]. discriminate.
Qed.

Lemma number_of_particles_loop_raise (self : swift_writer)
    (items : list (nat * string)) (names_to_write : list string)
    (number_of_particles : list nat) e :
  number_of_particles_loop self items names_to_write number_of_particles = Err e ->
  e <> NotImplementedError.
Proof.
  revert number_of_particles.
  induction items as [|[number name] items IH]; intros l; simpl; [discriminate|].
  destruct (contains _ _); [|apply IH].
  unfold getattr_dataset.
  destruct (datasets self !! name) as [g|]; [|intros [= <-]; discriminate].
  destruct (n_part _); [|intros [= <-]; discriminate].
  destruct (_ <? _)%nat; [apply IH|intros [= <-]; discriminate].
Qed.

(** [write] never asks for particle IDs.  [generate_ids] starts as
    [False] and is only ever and-ed, so after the first loop it is false
    whatever the datasets are, also when a dataset to write has no
    particle IDs; [_generate_ids], which raises NotImplementedError, is
    not called, and [write] goes on to open the file.  When the loop
    finds nothing to write, every dataset is empty and none was
    changed. *)
Theorem write_never_generates_ids (arrays : list quantity) (self self' : swift_writer)
    (names_to_write : list string) (flag : bool)
    (Hscan : scan arrays (map snd particle_name_underscores) self [] false =
             (Ok (names_to_write, flag), self')) :
  flag = false /\
  (names_to_write = [] ->
   self' = self /\ all_empty (map snd particle_name_underscores) self) /\
  (forall filename files,
      exists outcome file,
        write arrays filename self files =
        (outcome, (self', <[filename := file]> files))).
Proof.
  pose proof (scan_returns _ _ _ _ _ _ _ _ Hscan) as (Hflag & added & Hadded & Hnil).
  specialize (Hflag eq_refl). subst flag. simpl in Hadded. subst added.
  split; [reflexivity|]. split; [exact Hnil|].
  intros filename files. unfold write. rewrite Hscan.
  destruct (_write_metadata self' names_to_write []) as [[[]|e] file]; [|eauto].
  destruct (_write_units self' file) as [[[]|e] file']; [|eauto].
  destruct (write_particle_groups self' names_to_write file'); eauto.
Qed.

(** Writing a writer that was just made: every dataset is empty, so
    [write] changes no dataset, writes the header with six counts of zero
    and then does what [_write_units] does.  With a unit system given by
    name this is an AttributeError, a string having no [base_units]; with
    a unit system whose first conversion factor raises it is that
    exception.  In both cases the file is left with the header alone. *)
Theorem write_of_new_writer (unit_system : unit_system UnitSystem) (box : box)
    (compress : bool) (self : swift_writer) (arrays : list quantity)
    (filename : string) (files : gmap string h5file)
    (Hnew : new_writer unit_system box compress = Ok self) :
  all_empty (map snd particle_name_underscores) self /\
  write arrays filename self files =
    ((_write_units self [empty_header box]).1,
     (self, <[filename := (_write_units self [empty_header box]).2]> files)) /\
  match unit_system with
  | by_name _ =>
      write arrays filename self files =
      (Err (AttributeError "base_units"),
       (self, <[filename := [empty_header box]]> files))
  | by_object system =>
      forall e, cgs_conversion system dim_mass = Err e ->
        write arrays filename self files =
        (Err e, (self, <[filename := [empty_header box]]> files))
  end.
Proof.
  apply new_writer_all_empty in Hnew as (Hus & Hbox & Hall).
  assert (Hwrite : write arrays filename self files =
            ((_write_units self [empty_header box]).1,
             (self, <[filename := (_write_units self [empty_header box]).2]> files))).
  { unfold write.
    rewrite (scan_all_empty arrays _ self [] false Hall).
    unfold _write_metadata. rewrite number_of_particles_loop_nothing.
    rewrite Hbox. unfold empty_header. simpl app.
    destruct (_write_units self _) as [[[]|e] file]; reflexivity. }
  split; [exact Hall|]. split; [exact Hwrite|].
  rewrite Hwrite. unfold _write_units. rewrite Hus.
  destruct unit_system as [name|system]; [reflexivity|].
  intros e He. rewrite He. reflexivity.
Qed.

(** ** The header *)

Lemma number_of_particles_loop_returns (self : swift_writer)
    (items : list (nat * string)) (names_to_write : list string)
    (number_of_particles result : list nat) :
  NoDup (map fst items) ->
  number_of_particles_loop self items names_to_write number_of_particles = Ok result ->
  length result = length number_of_particles /\
  (forall number name, (number, name) ∈ items ->
     if contains names_to_write name
     then exists g n, datasets self !! name = Some g /\
                      n_part (instance g) = Some n /\ result !! number = Some n
     else result !! number = number_of_particles !! number) /\
  (forall i, i ∉ map fst items -> result !! i = number_of_particles !! i).
Proof.
  revert number_of_particles.
  induction items as [|[number name] items IH]; intros acc Hkeys; simpl.
  - intros [= <-]. split; [reflexivity|]. split; [|reflexivity].
    intros number name Hin. apply elem_of_nil in Hin. contradiction.
  - simpl in Hkeys. apply NoDup_cons in Hkeys as [Hfresh Hkeys].
    destruct (contains names_to_write name) eqn:Hc.
    + unfold getattr_dataset.
      destruct (datasets self !! name) as [g|] eqn:Hg; [|discriminate].
      destruct (n_part (instance g)) as [n|] eqn:Hn; [|discriminate].
      destruct (number <? length acc)%nat eqn:Hlt; [|discriminate].
      apply Nat.ltb_lt in Hlt. intros Hloop.
      destruct (IH _ Hkeys Hloop) as (Hlen & Hitems & Hrest).
      rewrite length_insert in Hlen. split; [exact Hlen|]. split.
      * intros number' name' Hin. apply elem_of_cons in Hin as [[= -> ->]|Hin].
        -- rewrite Hc. exists g, n. split; [exact Hg|]. split; [exact Hn|].
           rewrite (Hrest number Hfresh). apply list_lookup_insert_eq, Hlt.
        -- specialize (Hitems number' name' Hin).
           destruct (contains names_to_write name'); [exact Hitems|].
           rewrite Hitems. apply list_lookup_insert_ne. intros ->.
           apply Hfresh, list_elem_of_fmap. exists (number', name'). auto.
      * intros i Hi. apply not_elem_of_cons in Hi as [Hne Hi].
        rewrite (Hrest i Hi). apply list_lookup_insert_ne. congruence.
    + intros Hloop. destruct (IH _ Hkeys Hloop) as (Hlen & Hitems & Hrest).
      split; [exact Hlen|]. split.
      * intros number' name' Hin. apply elem_of_cons in Hin as [[= -> ->]|Hin].
        -- rewrite Hc. apply Hrest, Hfresh.
        -- apply Hitems, Hin.
      * intros i Hi. apply not_elem_of_cons in Hi as [_ Hi]. apply Hrest, Hi.
Qed.

(** The header that [_write_metadata] writes, the particle types having
    distinct numbers as the keys of a dict have: the file gets one group,
    "Header", with the box size, six particle counts, six zeros and the
    entropy flag, in this order.  The count at the number of a particle
    type to write is the [n_part] of its dataset, so [check_consistent]
    has run on it and its number is below six; the count at any other
    place is zero. *)
Theorem header_counts (self : swift_writer) (names_to_write : list string)
    (file : h5file)
    (Hkeys : NoDup (map fst particle_name_underscores))
    (Hrun : _write_metadata self names_to_write [] = (Ok tt, file)) :
  exists number_of_particles,
    file = [("Header",
             [("BoxSize", box_attr (box_size self));
              ("NumPart_Total", counts number_of_particles);
              ("NumPart_Total_HighWord", counts (replicate 6 0%nat));
              ("Flag_Entropy_ICs", integer 0)])] /\
    length number_of_particles = 6%nat /\
    (forall number name, (number, name) ∈ particle_name_underscores ->
       contains names_to_write name = true ->
       (number < 6)%nat /\
       exists g, datasets self !! name = Some g /\
                 n_part (instance g) = Some (number_of_particles !!! number)) /\
    (forall number name, (number, name) ∈ particle_name_underscores ->
       contains names_to_write name = false ->
       (number < 6)%nat -> number_of_particles !!! number = 0%nat) /\
    (forall i, i ∉ map fst particle_name_underscores -> (i < 6)%nat ->
       number_of_particles !!! i = 0%nat).
Proof.
  unfold _write_metadata in Hrun.
  destruct (number_of_particles_loop _ _ _ _) as [result|e] eqn:Hloop; [|discriminate].
  injection Hrun as <-.
  apply number_of_particles_loop_returns in Hloop as (Hlen & Hitems & Hrest);
    [|exact Hkeys].
  rewrite length_replicate in Hlen.
  assert (Hzero : forall i, (i < 6)%nat -> replicate 6 0%nat !! i = Some 0%nat)
    by (intros i Hi; apply lookup_replicate_2, Hi).
  exists result. split; [reflexivity|]. split; [exact Hlen|]. split; [|split].
  - intros number name Hin Hc. specialize (Hitems number name Hin).
    rewrite Hc in Hitems. destruct Hitems as (g & n & Hg & Hn & Hres).
    split; [rewrite <- Hlen; eapply lookup_lt_Some, Hres|].
    exists g. split; [exact Hg|].
    rewrite Hn. f_equal. symmetry. apply list_lookup_total_correct, Hres.
  - intros number name Hin Hc Hlt. specialize (Hitems number name Hin).
    rewrite Hc in Hitems. apply list_lookup_total_correct.
    rewrite Hitems. apply Hzero, Hlt.
  - intros i Hi Hlt. apply list_lookup_total_correct.
    rewrite (Hrest i Hi). apply Hzero, Hlt.
Qed.

End WriterResults.

(** ** The writer on the example metadata *)

Section WriterExamples.

Import writer.
#[local] Existing Instance example_units.
#[local] Existing Instance example_metadata.

Lemma new_dataset_is_empty_example :
  exists self names,
    __init__ (by_name "cgs") 0 = Ok self /\
    required_names self = Ok names /\
    (forall name, name ∈ names -> getter name self = Ok None) /\
    check_empty self = Ok true /\
    n_part self = None /\
    requires_particle_ids_before_write self = None /\
    particle_handle self = "PartType0".
Proof.
  destruct (__init__ (by_name "cgs") 0) as [self|e] eqn:Hinit;
    [|vm_compute in Hinit; discriminate].
  destruct (new_dataset_is_empty (by_name "cgs") 0 self Hinit) as [names H].
  exists self, names. split; [reflexivity|exact H].
Defined.


Lemma check_consistent_of_gas :
  exists self',
    check_consistent example_arrays example_gas = (Ok true, self') /\
    fields self' = fields example_gas /\
    n_part self' = Some 3%nat /\
    requires_particle_ids_before_write self' = Some true.
Proof.
  destruct (check_consistent example_arrays example_gas) as [result self'] eqn:Hrun.
  assert (Hres : result = Ok true)
    by (apply (f_equal fst) in Hrun; vm_compute in Hrun; congruence).
  subst result.
  destruct (check_consistent_returns example_arrays example_gas self' true Hrun)
    as (_ & Hfields & names & n & Hnames & Hn & _ & _ & Hflag).
  exists self'. split; [reflexivity|]. split; [exact Hfields|].
  apply (f_equal snd) in Hrun. simpl in Hrun. subst self'.
  split; vm_compute; reflexivity.
Defined.

Lemma check_consistent_of_unequal_lengths :
  check_consistent example_arrays
    (set_field "particle_ids" (Some 1%nat)
       (set_field "masses" (Some 2%nat) example_gas)) =
  (Err (AssertionError "gas"),
   set_requires false
     (set_field "particle_ids" (Some 1%nat)
        (set_field "masses" (Some 2%nat) example_gas))).
Proof.
  assert (Hset : Forall2 (sized example_arrays
                            (set_field "particle_ids" (Some 1%nat)
                               (set_field "masses" (Some 2%nat) example_gas)))
                   ["coordinates"; "masses"; "particle_ids"] [3; 4; 3]%nat).
  { constructor.
    { exists 0%nat, (Build_quantity [3; 3]%nat "cm" [0; 0; 0; 1; 0; 0; 0; 1; 0]).
      repeat split; vm_compute; reflexivity. }
    constructor.
    { exists 2%nat, (Build_quantity [4]%nat "g" [1; 1; 1; 1]).
      repeat split; vm_compute; reflexivity. }
    constructor; [|constructor].
    exists 1%nat, (Build_quantity [3]%nat "g" [1; 1; 1]).
    repeat split; vm_compute; reflexivity. }
  pose proof (check_consistent_all_set example_arrays
                (set_field "particle_ids" (Some 1%nat)
                   (set_field "masses" (Some 2%nat) example_gas))
                ["coordinates"; "masses"; "particle_ids"] [3; 4; 3]%nat
                eq_refl Hset) as Hspec.
  cbv beta iota in Hspec. apply (proj2 Hspec).
  intros Hall. apply Forall_cons in Hall as [Hfour _]. discriminate.
Defined.

Lemma scan_of_gas :
  exists self' names_to_write,
    scan example_arrays (map snd particle_name_underscores) example_writer [] false =
      (Ok (names_to_write, false), self') /\
    names_to_write = ["gas"] /\
    (instance <$> datasets self' !! "gas") ≫= requires_particle_ids_before_write =
      Some true /\
    forall filename files,
      exists outcome file,
        write example_arrays filename example_writer files =
        (outcome, (self', <[filename := file]> files)).
Proof.
  destruct (scan example_arrays (map snd particle_name_underscores) example_writer []
              false) as [result self'] eqn:Hscan.
  assert (Hres : exists flag, result = Ok (["gas"], flag)).
  { apply (f_equal fst) in Hscan. vm_compute in Hscan. subst result. eauto. }
  destruct Hres as [flag ->].
  destruct (write_never_generates_ids example_arrays example_writer self' ["gas"]
              flag Hscan) as (-> & _ & Hwrite).
  exists self', ["gas"]. split; [reflexivity|]. split; [reflexivity|].
  split; [|exact Hwrite].
  apply (f_equal snd) in Hscan. simpl in Hscan. subst self'.
  vm_compute. reflexivity.
Defined.

Lemma write_of_new_writer_by_name :
  exists self,
    new_writer (by_name "cgs") (box_float 1) true = Ok self /\
    all_empty (map snd particle_name_underscores) self /\
    write example_arrays "ic.hdf5" self ∅ =
      (Err (AttributeError "base_units"),
       (self, <["ic.hdf5" := [empty_header (box_float 1)]]> ∅)).
Proof.
  destruct (new_writer (by_name "cgs") (box_float 1) true) as [self|e] eqn:Hnew;
    [|vm_compute in Hnew; discriminate].
  exists self. split; [reflexivity|].
  destruct (write_of_new_writer (by_name "cgs") (box_float 1) true self example_arrays
              "ic.hdf5" ∅ Hnew) as (Hall & _ & Hwrite).
  split; [exact Hall|exact Hwrite].
Defined.

Lemma header_of_gas :
  exists number_of_particles file,
    _write_metadata example_checked_writer ["gas"] [] = (Ok tt, file) /\
    file = [("Header",
             [("BoxSize", box_scalar 1);
              ("NumPart_Total", counts number_of_particles);
              ("NumPart_Total_HighWord", counts (replicate 6 0%nat));
              ("Flag_Entropy_ICs", integer 0)])] /\
    length number_of_particles = 6%nat /\
    number_of_particles !!! 0%nat = 3%nat /\
    number_of_particles !!! 1%nat = 0%nat /\
    number_of_particles !!! 5%nat = 0%nat.
Proof.
  assert (Hkeys : NoDup (map fst particle_name_underscores))
    by (apply (bool_decide_unpack _); vm_compute; exact I).
  destruct (_write_metadata example_checked_writer ["gas"] []) as [result file] eqn:Hrun.
  assert (Hres : result = Ok tt)
    by (apply (f_equal fst) in Hrun; vm_compute in Hrun; congruence).
  subst result.
  destruct (header_counts example_checked_writer ["gas"] file Hkeys Hrun)
    as (n & Hfile & Hlen & Hwritten & Hnot & Hother).
  exists n, file. split; [reflexivity|]. split; [exact Hfile|]. split; [exact Hlen|].
  split; [|split].
  - destruct (Hwritten 0%nat "gas") as (_ & g & Hg & Hn);
      [apply elem_of_cons; left; reflexivity|reflexivity|].
    assert (Hgas : datasets example_checked_writer !! "gas" =
                   Some (mk_generated example_properties
                           (set_n_part 3 (set_requires true example_gas))))
      by (vm_compute; reflexivity).
    rewrite Hgas in Hg. injection Hg as <-.
    assert (H3 : Some 3%nat = Some (n !!! 0%nat)) by exact Hn.
    injection H3 as <-. reflexivity.
  - apply (Hnot 1%nat "dark_matter");
      [apply elem_of_cons; right; apply elem_of_cons; left; reflexivity
      |reflexivity|lia].
  - apply Hother; [|lia]. intros Hin.
    apply elem_of_cons in Hin as [Hin|Hin]; [discriminate|].
    apply elem_of_cons in Hin as [Hin|Hin]; [discriminate|].
    apply elem_of_nil in Hin. exact Hin.
Defined.

End WriterExamples.
